(** * openag.cli.db: the CouchDB management commands

    A shallow embedding of [openag/cli/db/__init__.py].  Python dicts are
    finite maps with string keys ([gmap string json]), so that equality of
    records is the order-insensitive equality of Python's [==] on dicts.
    Commands run in a small state-and-exception monad over a [World] that
    holds the configuration store, the CouchDB server and the file system;
    every request sent to a collaborator is also recorded as an [event]. *)

From Stdlib Require Import ZArith Ascii String.
From stdpp Require Import gmap strings list fin_maps sorting.

#[local] Set Warnings "-register-all".
#[local] Open Scope Z_scope.

(** ** JSON values and records *)

(** What [json.load] and the database hand out; numbers are integers here. *)

Inductive json :=
  | JNull
  | JBool (b : bool)
  | JNum (n : Z)
  | JStr (s : string)
  | JArr (l : list json)
  | JObj (m : gmap string json).

#[global] Instance json_eq_dec : EqDecision json.
Proof.
  refine (fix go (x y : json) {struct x} : Decision (x = y) :=
    let _ : EqDecision json := go in
    match x, y with
    | JNull, JNull => left eq_refl
    | JBool a, JBool b => cast_if (decide (a = b))
    | JNum a, JNum b => cast_if (decide (a = b))
    | JStr a, JStr b => cast_if (decide (a = b))
    | JArr a, JArr b => cast_if (decide (a = b))
    | JObj a, JObj b => cast_if (decide (a = b))
    | _, _ => right _
    end); abstract congruence.
Defined.

(** A record (a CouchDB document, a fixture item, a manifest): a Python dict
    with string keys. *)
Abbreviation Doc := (gmap string json).

(** A database maps document ids to documents; a server maps database names
    to databases. *)
Abbreviation Database := (gmap string (gmap string json)).

(** ** Exceptions and events *)

Inductive exn :=
  | KeyError (key : string)
  | TypeError
  | ValueError
  | NameError (name : string)
  | IOError (filename : string)
  | ClickException (message : string)
  | ResourceNotFound
  | ResourceConflict
  | Invalid.

Inductive result (A : Type) :=
  | Ok (a : A)
  | Raise (e : exn).
Arguments Ok {A} a.
Arguments Raise {A} e.

(** What a command does to the outside, in program order: the requests
    of [init], the writes of documents, the clone and the files opened,
    the pauses and the messages.  Reads of documents are not recorded. *)
Inductive event :=
  | EvHttpGet (url : string)
  | EvHttpPut (url body : string)
  | EvSleep (seconds : Z)
  | EvGetOrCreate (db_name : string)
  | EvPushDesign (design_path : string)
  | EvReplicateGlobal (local_url : string)
  | EvReplicatePerFarm (local_url : string)
  | EvEcho (message : string)
  | EvDocPut (db_name doc_id : string) (doc : Doc)
  | EvClone (branch url dir_name cwd : string)
  | EvOpen (filename : string)
  | EvMkdtemp (dir : string)
  | EvRmtree (dir : string).

#[global] Instance exn_eq_dec : EqDecision exn.
Proof. solve_decision. Defined.
#[global] Instance result_eq_dec {A} `{EqDecision A} : EqDecision (result A).
Proof. solve_decision. Defined.
#[global] Instance event_eq_dec : EqDecision event.
Proof. solve_decision. Defined.

(** ** The world *)

(** The configuration store of the command line ([openag.cli.config]):
    [config["local_server"]["url"]], [config["cloud_server"]["url"]] and
    [config["cloud_server"]["farm_name"]]; [None] when unset. *)
Record Config := {
  local_server_url : option string;
  cloud_server_url : option string;
  cloud_server_farm_name : option string;
}.

(** A file of the scratch area as [open] and [json.load] see it: a manifest
    holding a JSON object, or content that is not valid JSON. *)
Inductive file :=
  | FManifest (info : Doc)
  | FInvalid.

Record FS := {
  files : gmap string file;
  dirs : gset string;
}.

Record World := {
  config : Config;
  couch_config : gmap string string;
  dbs : gmap string (gmap string (gmap string json));
  fs : FS;
}.

Definition set_config (c : Config) (w : World) : World :=
  {| config := c; couch_config := couch_config w; dbs := dbs w; fs := fs w |}.
Definition set_couch_config (cc : gmap string string) (w : World) : World :=
  {| config := config w; couch_config := cc; dbs := dbs w; fs := fs w |}.
Definition set_dbs (d : gmap string (gmap string (gmap string json))) (w : World) : World :=
  {| config := config w; couch_config := couch_config w; dbs := d; fs := fs w |}.
Definition set_fs (f : FS) (w : World) : World :=
  {| config := config w; couch_config := couch_config w; dbs := dbs w; fs := f |}.

(** ** The command monad: state, exceptions and a log of events *)

Record Outcome (A : Type) := {
  res : result A;
  final : World;
  events : list event;
}.
Arguments res {A} o.
Arguments final {A} o.
Arguments events {A} o.
Arguments Build_Outcome {A} res final events.

Definition M (A : Type) : Type := World → Outcome A.

Definition ret {A} (a : A) : M A := λ w, Build_Outcome (Ok a) w [].
Definition raise {A} (e : exn) : M A := λ w, Build_Outcome (Raise e) w [].
Definition bind {A B} (m : M A) (k : A → M B) : M B := λ w,
  match m w with
  | Build_Outcome (Ok a) w1 evs1 =>
      match k a w1 with
      | Build_Outcome r w2 evs2 => Build_Outcome r w2 (evs1 ++ evs2)
      end
  | Build_Outcome (Raise e) w1 evs1 => Build_Outcome (Raise e) w1 evs1
  end.

#[global] Instance M_ret : MRet M := @ret.
#[global] Instance M_bind : MBind M := λ A B k m, bind m k.

Definition emit (e : event) : M unit := λ w, Build_Outcome (Ok tt) w [e].
Definition get_world : M World := λ w, Build_Outcome (Ok w) w [].
Definition modify (f : World → World) : M unit := λ w, Build_Outcome (Ok tt) (f w) [].
Definition lift {A} (r : result A) : M A := λ w, Build_Outcome r w [].

(** A [for] loop whose body may raise. *)
Fixpoint for_each {A} (body : A → M unit) (l : list A) : M unit :=
  match l with
  | [] => ret tt
  | x :: l' => body x ;; for_each body l'
  end.

(** The document writes among a run's events. *)
Definition writes (evs : list event) : list (string * string * Doc) :=
  omap (λ e, match e with EvDocPut d i doc => Some (d, i, doc) | _ => None end) evs.

(** ** Strings *)

Definition dquote : ascii := ascii_of_nat 34.
Definition backslash : ascii := ascii_of_nat 92.
Definition q : string := String dquote EmptyString.

(** [s.replace('"', '\\"')] *)
Fixpoint escape_quotes (s : string) : string :=
  match s with
  | EmptyString => EmptyString
  | String c s' =>
      if decide (c = dquote)
      then String backslash (String dquote (escape_quotes s'))
      else String c (escape_quotes s')
  end.

(** Whitespace of [str.strip()]: space, tab, newline, vertical tab, form
    feed, carriage return. *)
Definition is_space (c : ascii) : bool :=
  let n := nat_of_ascii c in
  bool_decide (n = 32%nat) || (bool_decide (9 ≤ n)%nat && bool_decide (n ≤ 13)%nat).

Fixpoint lstrip (s : string) : string :=
  match s with
  | EmptyString => EmptyString
  | String c s' => if is_space c then lstrip s' else s
  end.

Fixpoint rstrip (s : string) : string :=
  match s with
  | EmptyString => EmptyString
  | String c s' =>
      match rstrip s' with
      | EmptyString => if is_space c then EmptyString else String c EmptyString
      | r => String c r
      end
  end.

Definition strip (s : string) : string := lstrip (rstrip s).

(** [posixpath.join(a, b)] *)
Definition ends_with_sep (s : string) : bool :=
  match String.length s with
  | O => false
  | S n => bool_decide (String.get n s = Some "/"%char)
  end.

Definition path_join (a b : string) : string :=
  if String.prefix "/" b then b
  else if bool_decide (a = EmptyString) || ends_with_sep a then a +:+ b
  else a +:+ "/" +:+ b.

(** Truth value of a configuration entry: unset and empty are false. *)
Definition truthy (o : option string) : bool :=
  match o with
  | Some s => bool_decide (s ≠ EmptyString)
  | None => false
  end.

(** ** A concrete world, to run the commands on *)

Module Sim.

(** Path components joined with slashes. *)
Definition urljoin (base : string) (parts : list string) : string :=
  foldl (λ acc p, acc +:+ "/" +:+ p) base parts.

Definition generate_config (api_url : option string)
    : list (string * list (string * string)) :=
  [("httpd", [("bind_address", "0.0.0.0"); ("enable_cors", "true")])].

Definition all_dbs : list string := ["firmware_module_type"; "recipes"].
Definition FIRMWARE_MODULE_TYPE : string := "firmware_module_type".
Definition design_path : string := "/openag/_design".

(** Revisions counted up from 1. *)
Definition new_rev (old : option json) (doc : Doc) : json :=
  match old with
  | Some (JNum n) => JNum (n + 1)
  | _ => JNum 1
  end.

Definition make_dir_name_from_url (url : string) : string :=
  if decide (url = "https://x/y.git") then "y" else "repo".

(** A clone against the remotes [remote] (URL to manifest): it fails with
    status 128 and changes nothing when the URL is unknown or the
    destination exists; otherwise it creates the destination with the
    manifest in it. *)
Definition git_clone (remote : gmap string file)
    (branch url dir_name cwd : string) (f : FS) : Z * FS :=
  let dest := path_join cwd dir_name in
  match remote !! url with
  | Some manifest =>
      if decide (dest ∈ dirs f) then (128, f)
      else (0, {| files := <[path_join dest "module.json" := manifest]> (files f);
                  dirs := {[dest]} ∪ dirs f |})
  | None => (128, f)
  end.

Definition FirmwareModuleType (obj : Doc) : result Doc := Ok obj.

Definition mkdtemp_name (used : gset string) : string := "/tmp/tmpA".

Definition no_config : Config :=
  {| local_server_url := None; cloud_server_url := None;
     cloud_server_farm_name := None |}.

Definition local_config : Config :=
  {| local_server_url := Some "http://localhost:5984"; cloud_server_url := None;
     cloud_server_farm_name := None |}.

Definition empty_fs : FS := {| files := ∅; dirs := ∅ |}.

Definition world (c : Config) (store : gmap string (gmap string (gmap string json)))
    : World :=
  {| config := c; couch_config := ∅; dbs := store; fs := empty_fs |}.

(** Answers of the server to a configuration write. *)
Definition status_ok (url body : string) : Z := 200.
Definition status_error (url body : string) : Z := 500.

Definition db_url : string := "http://localhost:5984".
Definition scratch : string := "/tmp/tmpA".
Definition git_url : string := "https://x/y.git".

(** A world whose scratch directory exists. *)
Definition scratch_world (store : gmap string (gmap string (gmap string json)))
    : World :=
  {| config := local_config; couch_config := ∅; dbs := store;
     fs := {| files := ∅; dirs := {[scratch]} |} |}.

(** Firmware module types: one kept in a git repository, one not. *)
Definition module_m1 : Doc :=
  {[ "_id" := JStr "m1"; "_rev" := JNum 1;
     "repository" := JObj {[ "type" := JStr "git"; "url" := JStr git_url ]} ]}.

Definition module_p1 : Doc :=
  {[ "_id" := JStr "p1"; "_rev" := JNum 1; "name" := JStr "pump" ]}.

Definition module_svn : Doc :=
  {[ "_id" := JStr "s1"; "_rev" := JNum 1;
     "repository" := JObj {[ "type" := JStr "svn"; "url" := JStr "svn://x/y" ]} ]}.

(** Records whose repository descriptor lacks a key. *)
Definition module_untyped : Doc :=
  {[ "_id" := JStr "u1"; "repository" := JObj {[ "url" := JStr git_url ]} ]}.

Definition module_no_url : Doc :=
  {[ "_id" := JStr "u2"; "repository" := JObj {[ "type" := JStr "git" ]} ]}.

(** A second module type kept in the same repository, on another branch. *)
Definition module_m2 : Doc :=
  {[ "_id" := JStr "m2"; "_rev" := JNum 1;
     "repository" := JObj {[ "type" := JStr "git"; "url" := JStr git_url;
                             "branch" := JStr "dev" ]} ]}.

Definition two_store : gmap string (gmap string (gmap string json)) :=
  {[ FIRMWARE_MODULE_TYPE := {[ "m1" := module_m1; "m2" := module_m2 ]} ]}.

Definition git_store : gmap string (gmap string (gmap string json)) :=
  {[ FIRMWARE_MODULE_TYPE := {[ "m1" := module_m1 ]} ]}.

Definition plain_store : gmap string (gmap string (gmap string json)) :=
  {[ FIRMWARE_MODULE_TYPE := {[ "p1" := module_p1 ]} ]}.

(** Manifests: one with a version, one that names an id and a revision. *)
Definition manifest_version : Doc := {[ "version" := JStr "2.0" ]}.
Definition manifest_ids : Doc :=
  {[ "_id" := JStr "other"; "_rev" := JNum 7 ]}.

(** Fixture sets for a database [widgets]. *)
Definition widget_foo : Doc := {[ "_id" := JStr "a"; "name" := JStr "foo" ]}.
Definition widget_bar : Doc := {[ "_id" := JStr "a"; "name" := JStr "bar" ]}.

Definition widgets_fixture : list (string * list Doc) :=
  [("widgets", [widget_foo])].
Definition duplicate_fixture : list (string * list Doc) :=
  [("widgets", [widget_foo; widget_bar])].

Definition widgets_world : World := world local_config {[ "widgets" := ∅ ]}.

(** The fixture record [p1] as a fixture file would hold it, without a
    revision. *)
Definition fixture_p1 : Doc := {[ "_id" := JStr "p1"; "name" := JStr "pump" ]}.

(** Answers of the user to the prompt of [clear]: yes, or no (the prompt
    then aborts the command). *)
Definition confirm_yes (message : string) : result unit := Ok tt.
Definition confirm_no (message : string) : result unit :=
  Raise (ClickException "Aborted!").

(** A server with the databases of [all_dbs] and one more. *)
Definition full_store : gmap string (gmap string (gmap string json)) :=
  {[ "firmware_module_type" := {[ "m1" := module_m1 ]};
     "recipes" := ∅;
     "widgets" := {[ "a" := widget_foo ]} ]}.

(** A configuration with a cloud server and a farm. *)
Definition cloud_config : Config :=
  {| local_server_url := None; cloud_server_url := Some "https://cloud.example";
     cloud_server_farm_name := Some "farm1" |}.

(** A design document next to a module type. *)
Definition design_store : gmap string (gmap string (gmap string json)) :=
  {[ FIRMWARE_MODULE_TYPE :=
       {[ "_design/openag" := {[ "_id" := JStr "_design/openag"; "_rev" := JNum 1 ]};
          "m1" := module_m1 ]};
     "recipes" := {[ "r1" := {[ "_id" := JStr "r1"; "_rev" := JNum 1 ]} ]} ]}.

(** A server that already holds the two values of [generate_config], each
    followed by a newline as the server sends it. *)
Definition newline : string := String (ascii_of_nat 10) EmptyString.

Definition configured_world : World :=
  {| config := no_config;
     couch_config :=
       {[ "http://localhost:5984/_config/httpd/bind_address"
            := q +:+ "0.0.0.0" +:+ q +:+ newline;
          "http://localhost:5984/_config/httpd/enable_cors"
            := q +:+ "true" +:+ q +:+ newline ]};
     dbs := ∅; fs := empty_fs |}.



End Sim.

(** ** The commands *)

Section Commands.

(** Code of the package that lives outside [openag/cli/db/__init__.py],
    and the answers of the outside world, are parameters of the model. *)

(** [couchdb.http.urljoin(base, *path)] *)
Variable urljoin : string → list string → string.
(** [openag.cli.db.db_config.generate_config(api_url)]: sections, each with
    its parameters and values, in the order [items()] yields them. *)
Variable generate_config : option string → list (string * list (string * string)).
(** Status of the response to [PUT url body] on the server's [_config]. *)
Variable put_status : string → string → Z.
(** [openag.db_names.all_dbs] and [openag.db_names.FIRMWARE_MODULE_TYPE] *)
Variable all_dbs : list string.
Variable FIRMWARE_MODULE_TYPE : string.
(** [os.path.dirname(openag._design.__file__)] *)
Variable design_path : string.
(** The revision the server assigns to an accepted write, from the
    revision it replaces and the document written. *)
Variable new_rev : option json → Doc → json.
(** [openag.utils.make_dir_name_from_url(url)] *)
Variable make_dir_name_from_url : string → string.
(** [git clone -b branch url dir_name] run in [cwd]: its exit status and
    what it leaves on disk. *)
Variable git_clone : string → string → string → string → FS → Z * FS.
(** [openag.models.FirmwareModuleType(obj)] *)
Variable FirmwareModuleType : Doc → result Doc.
(** The name [tempfile.mkdtemp()] picks, given the directories in use. *)
Variable mkdtemp_name : gset string → string.
(** [click.confirm(message, abort=True)]: it returns when the user agrees
    and raises otherwise. *)
Variable confirm : string → result unit.

(** *** Collaborators *)

(** [d[key]] on a dict. *)
Definition getitem (d : Doc) (key : string) : M json :=
  match d !! key with
  | Some v => ret v
  | None => raise (KeyError key)
  end.

(** [v[key]] on any JSON value: only a dict can be subscripted by a string. *)
Definition subscript (v : json) (key : string) : M json :=
  match v with
  | JObj d => getitem d key
  | _ => raise TypeError
  end.

(** [v.get(key, default)] *)
Definition get_default (v : json) (key : string) (dflt : json) : M json :=
  match v with
  | JObj d => ret (default dflt (d !! key))
  | _ => raise TypeError
  end.

(** Modelled from the spec: [utils.check_for_local_server()], of
    [openag.cli.utils]; it throws an error if no local server is selected. *)
Definition check_for_local_server : M unit :=
  w ← get_world;
  if truthy (local_server_url (config w)) then ret tt
  else raise (ClickException "No local server selected").

(** [server[db_name]]: the handle of a database that must exist. *)
Definition server_getitem (db_name : string) : M Database :=
  w ← get_world;
  match dbs w !! db_name with
  | Some db => ret db
  | None => raise ResourceNotFound
  end.

(** [item_id in db] and [db[item_id]] of a stored document. *)
Definition db_lookup (db_name item_id : string) : M (option Doc) :=
  db ← server_getitem db_name;
  ret (db !! item_id).

Definition db_getitem (db_name item_id : string) : M Doc :=
  old ← db_lookup db_name item_id;
  match old with
  | Some doc => ret doc
  | None => raise ResourceNotFound
  end.

(** Modelled from the spec: [db[doc_id] = doc], the per-database put with
    optimistic concurrency via the revision token.  The write is accepted
    when the revision it carries is the one stored (none for a new
    document) and fails with a conflict when stale; an accepted document
    is stored under [doc_id] with a revision assigned by the server. *)
Definition db_setitem (db_name doc_id : string) (doc : Doc) : M unit :=
  emit (EvDocPut db_name doc_id doc) ;;
  db ← server_getitem db_name;
  let stored_rev := db !! doc_id ≫= (.!! "_rev") in
  if decide (doc !! "_rev" = stored_rev) then
    let stored := <["_rev" := new_rev stored_rev doc]> (<["_id" := JStr doc_id]> doc) in
    modify (λ w, set_dbs (<[db_name := <[doc_id := stored]> db]> (dbs w)) w)
  else raise ResourceConflict.

(** Modelled from the spec: [for _id in db], iterate-all-keys; the ids
    are listed once, before the loop body runs, in ascending order. *)
Definition db_iter (db_name : string) : M (list string) :=
  db ← server_getitem db_name;
  ret (merge_sort (λ a b, String.leb a b) (elements (dom db))).

(** *** [init] *)

(** [urljoin(server.resource.url, "_config", section, param)] *)
Definition config_url (db_url section param : string) : string :=
  urljoin db_url ["_config"; section; param].

(** ['"{}"'.format(value.replace('"', '\\"'))] *)
Definition desired_val (value : string) : string :=
  q +:+ escape_quotes value +:+ q.

(** Modelled from the spec: get-config(section, param), the [GET] of
    [init] on the server's [_config]; the body of the response, or [None]
    when the server answers not found ([ResourceNotFound] is caught). *)
Definition config_get (url : string) : M (option string) :=
  emit (EvHttpGet url) ;;
  w ← get_world;
  ret (couch_config w !! url).

(** Modelled from the spec: set-config(section, param, value), the [PUT]
    of [init] on the server's [_config]; the status of the response is
    returned, and a write answered with 200 is what later reads see. *)
Definition config_put (url body : string) : M Z :=
  emit (EvHttpPut url body) ;;
  let status := put_status url body in
  (if decide (status = 200)
   then modify (λ w, set_couch_config (<[url := body]> (couch_config w)) w)
   else ret tt) ;;
  ret status.

(** One round of the configuration loop of [init], for the item
    [(section, param, value)]. *)
Definition apply_config_item (db_url : string)
    (item : string * string * string) : M unit :=
  let '(section, param, value) := item in
  let url := config_url db_url section param in
  body ← config_get url;
  let current_val := strip <$> body in
  let desired_val := desired_val value in
  if decide (current_val ≠ Some desired_val) then
    status ← config_put url desired_val;
    (if decide (status ≠ 200)
     then (* the message is formatted from [res.content], and no [res]
             is bound anywhere in the module *)
          raise (NameError "res")
     else ret tt) ;;
    (* time.sleep(1) *)
    emit (EvSleep 1)
  else ret tt.

(** [server.get_or_create(db_name)] *)
Definition get_or_create (db_name : string) : M unit :=
  emit (EvGetOrCreate db_name) ;;
  modify (λ w, match dbs w !! db_name with
               | Some _ => w
               | None => set_dbs (<[db_name := ∅]> (dbs w)) w
               end).

Definition config_items (db_config : list (string * list (string * string)))
    : list (string * string * string) :=
  flat_map (λ sv, map (λ pv, (sv.1, pv.1, pv.2)) sv.2) db_config.

Definition init (db_url : string) (api_url : option string) : M unit :=
  w ← get_world;
  let old_db_url := local_server_url (config w) in
  if truthy old_db_url && bool_decide (old_db_url ≠ Some db_url) then
    raise (ClickException
      ("Local database " +:+ q +:+ default EmptyString old_db_url +:+ q +:+
       " already initialized. Switching local databases is not currently supported"))
  else
    let db_config := generate_config api_url in
    for_each (apply_config_item db_url) (config_items db_config) ;;
    for_each get_or_create all_dbs ;;
    emit (EvEcho "Pushing design documents") ;;
    emit (EvPushDesign design_path) ;;
    w ← get_world;
    (if truthy (cloud_server_url (config w)) then
       emit (EvEcho "Setting up replication with cloud server") ;;
       emit (EvReplicateGlobal db_url) ;;
       if truthy (cloud_server_farm_name (config w))
       then emit (EvReplicatePerFarm db_url)
       else ret tt
     else ret tt) ;;
    modify (λ w, set_config
      {| local_server_url := Some db_url;
         cloud_server_url := cloud_server_url (config w);
         cloud_server_farm_name := cloud_server_farm_name (config w) |} w).

(** *** [load_fixture] *)

(** The document id under [key]; ids are strings. *)
Definition getitem_id (d : Doc) (key : string) : M string :=
  v ← getitem d key;
  match v with
  | JStr s => ret s
  | _ => raise TypeError
  end.

(** The body of the inner loop of [load_fixture]. *)
Definition load_fixture_item (db_name : string) (item : Doc) : M unit :=
  item_id ← getitem_id item "_id";
  found ← db_lookup db_name item_id;
  match found with
  | Some old_item =>
      rev ← getitem old_item "_rev";
      let item := <["_rev" := rev]> item in
      if decide (item = old_item) then ret tt
      else db_setitem db_name item_id item
  | None => db_setitem db_name item_id item
  end.

(** One database of the fixture: [db = server[db_name]], then the loop
    over its records. *)
Definition load_fixture_entry (entry : string * list Doc) : M unit :=
  _ ← server_getitem entry.1;
  for_each (load_fixture_item entry.1) entry.2.

Definition load_fixture_loop (fixture : list (string * list Doc)) : M unit :=
  for_each load_fixture_entry fixture.

(** [fixture] is the fixture file as read by [json.load]: database names
    with their arrays of objects, in the order [items()] yields them. *)
Definition load_fixture (fixture : list (string * list Doc)) : M unit :=
  check_for_local_server ;;
  load_fixture_loop fixture.

(** *** [update_record] and [update_module_types] *)

(** [make_dir_name_from_url] and the argument list of [git] take strings. *)
Definition as_str (v : json) : M string :=
  match v with
  | JStr s => ret s
  | _ => raise TypeError
  end.

(** [subprocess.call(["git", "clone", ...], cwd=temp_folder)]: the exit
    status is dropped. *)
Definition call_git_clone (branch url dir_name cwd : string) : M unit :=
  emit (EvClone branch url dir_name cwd) ;;
  modify (λ w, set_fs (git_clone branch url dir_name cwd (fs w)).2 w).

(** [with open(config_path) as f: info = json.load(f)] *)
Definition load_json (config_path : string) : M Doc :=
  emit (EvOpen config_path) ;;
  w ← get_world;
  match files (fs w) !! config_path with
  | None => raise (IOError config_path)
  | Some FInvalid => raise ValueError
  | Some (FManifest info) => ret info
  end.

Definition update_record (obj : Doc) (temp_folder : string) : M Doc :=
  match obj !! "repository" with
  | None => ret obj
  | Some repo =>
      type ← subscript repo "type";
      if decide (type ≠ JStr "git") then ret obj
      else
        url ← subscript repo "url";
        branch ← get_default repo "branch" (JStr "master");
        url ← as_str url;
        let dir_name := make_dir_name_from_url url in
        branch ← as_str branch;
        call_git_clone branch url dir_name temp_folder ;;
        let config_path := path_join temp_folder (path_join dir_name "module.json") in
        info ← load_json config_path;
        (* new_obj = dict(obj); new_obj.update(info) *)
        ret (info ∪ obj)
  end.

(** The body of the loop of [update_module_types]. *)
Definition update_module_type (temp_folder : string) (_id : string) : M unit :=
  if String.prefix "_" _id then ret tt
  else
    obj ← db_getitem FIRMWARE_MODULE_TYPE _id;
    model ← lift (FirmwareModuleType obj);
    new_obj ← update_record model temp_folder;
    rev ← getitem obj "_rev";
    let new_obj := <["_rev" := rev]> new_obj in
    if decide (new_obj ≠ obj) then db_setitem FIRMWARE_MODULE_TYPE _id new_obj
    else ret tt.

(** [tempfile.mkdtemp()] *)
Definition mkdtemp : M string :=
  w ← get_world;
  let dir := mkdtemp_name (dirs (fs w)) in
  emit (EvMkdtemp dir) ;;
  modify (λ w, set_fs {| files := files (fs w); dirs := {[dir]} ∪ dirs (fs w) |} w) ;;
  ret dir.

(** [shutil.rmtree(dir)]: the directory and everything below it. *)
Definition below (dir path : string) : bool :=
  bool_decide (path = dir) || String.prefix (dir +:+ "/") path.

Definition rmtree (dir : string) : M unit :=
  emit (EvRmtree dir) ;;
  modify (λ w, set_fs
    {| files := filter (λ kv, ¬ below dir kv.1) (files (fs w));
       dirs := filter (λ d, ¬ below dir d) (dirs (fs w)) |} w).

Definition update_module_types : M unit :=
  _ ← server_getitem FIRMWARE_MODULE_TYPE;
  temp_folder ← mkdtemp;
  ids ← db_iter FIRMWARE_MODULE_TYPE;
  for_each (update_module_type temp_folder) ids ;;
  rmtree temp_folder.

(** *** [deinit], [show] and [clear] *)

Definition deinit : M unit :=
  check_for_local_server ;;
  (* del config["local_server"] *)
  modify (λ w, set_config
    {| local_server_url := None;
       cloud_server_url := cloud_server_url (config w);
       cloud_server_farm_name := cloud_server_farm_name (config w) |} w).

Definition show : M unit :=
  check_for_local_server ;;
  w ← get_world;
  emit (EvEcho ("Using local server at " +:+ q +:+
                default EmptyString (local_server_url (config w)) +:+ q)).

(** Modelled from the spec: [del server[db_name]], delete-database(name);
    a database that does not exist is not found. *)
Definition server_delitem (db_name : string) : M unit :=
  w ← get_world;
  match dbs w !! db_name with
  | Some _ => modify (λ w, set_dbs (delete db_name (dbs w)) w)
  | None => raise ResourceNotFound
  end.

Definition clear : M unit :=
  check_for_local_server ;;
  lift (confirm "Are you sure you want to do this? It will delete all of your data") ;;
  for_each server_delitem all_dbs.

(** *** Vocabulary of the properties *)

(** The configuration writes among a run's events. *)
Definition config_writes (evs : list event) : list (string * string) :=
  omap (λ e, match e with EvHttpPut u b => Some (u, b) | _ => None end) evs.

(** The requests of the configuration loop of [init]. *)
Definition config_event (e : event) : Prop :=
  match e with
  | EvHttpGet _ | EvHttpPut _ _ | EvSleep _ => True
  | _ => False
  end.

(** What the last part of [init] does about replication, for the
    configuration store [c]. *)
Definition replication_events (c : Config) (db_url : string) : list event :=
  if truthy (cloud_server_url c) then
    [EvEcho "Setting up replication with cloud server"; EvReplicateGlobal db_url]
    ++ (if truthy (cloud_server_farm_name c) then [EvReplicatePerFarm db_url] else [])
  else [].

(** A string of whitespace only. *)
Fixpoint all_space (s : string) : bool :=
  match s with
  | EmptyString => true
  | String c s' => is_space c && all_space s'
  end.

(** The URLs of the configuration parameters, in the order of the loop. *)
Definition config_urls (db_url : string) (items : list (string * string * string))
    : list string :=
  map (λ item, config_url db_url item.1.1 item.1.2) items.

(** The server holds the desired value of the parameter [item]. *)
Definition configured (db_url : string) (w : World)
    (item : string * string * string) : Prop :=
  strip <$> couch_config w !! config_url db_url item.1.1 item.1.2
    = Some (desired_val item.2).

(** The document stored under [doc_id] in database [db_name], if any. *)
Definition lookup_doc (w : World) (db_name doc_id : string) : option Doc :=
  dbs w !! db_name ≫= (.!! doc_id).

(** The records of a fixture set, each named by its database and by the
    value of its [_id] field. *)
Definition fixture_keys (fixture : list (string * list Doc))
    : list (string * option json) :=
  flat_map (λ entry, map (λ item : Doc, (entry.1, item !! "_id")) entry.2) fixture.

(** The store holds [item] up to the revision: the stored document is
    [item] with the stored revision put in. *)
Definition settled (w : World) (db_name : string) (item : Doc) : Prop :=
  ∃ doc_id old rev,
    item !! "_id" = Some (JStr doc_id) ∧
    lookup_doc w db_name doc_id = Some old ∧
    old !! "_rev" = Some rev ∧
    <["_rev" := rev]> item = old.

(** [w'] differs from [w] at most in the documents named by [keys]:
    same configuration, no database lost, every other document as before. *)
Definition frame (keys : list (string * option json)) (w w' : World) : Prop :=
  config w' = config w ∧
  (∀ db_name, is_Some (dbs w !! db_name) → is_Some (dbs w' !! db_name)) ∧
  (∀ db_name doc_id, (db_name, Some (JStr doc_id)) ∉ keys →
     lookup_doc w' db_name doc_id = lookup_doc w db_name doc_id).

(** A command that writes no document and leaves the databases and the
    configuration store alone. *)
Definition quiet {A} (m : M A) : Prop :=
  ∀ w, writes (events (m w)) = [] ∧
       dbs (final (m w)) = dbs w ∧
       config (final (m w)) = config w.

(** [w'] has the databases of [w] other than [db_name], its configuration
    store, and in [db_name] documents under the same ids. *)
Definition same_ids (db_name : string) (w w' : World) : Prop :=
  config w' = config w ∧
  (∀ name, name ≠ db_name → dbs w' !! name = dbs w !! name) ∧
  (∀ doc_id, is_Some (lookup_doc w' db_name doc_id)
             ↔ is_Some (lookup_doc w db_name doc_id)).


(** ** Properties *)

(** Unfolds the operations of the monad in a goal. *)
Ltac run :=
  unfold mbind, M_bind, bind, mret, M_ret, ret, raise, emit, get_world,
    modify, lift; simpl.

Lemma bind_ok {A B} (m : M A) (k : A → M B) (w : World) (a : A) :
  res (m w) = Ok a →
  (m ≫= k) w =
    {| res := res (k a (final (m w)));
       final := final (k a (final (m w)));
       events := events (m w) ++ events (k a (final (m w))) |}.
Proof.
  unfold mbind, M_bind, bind. destruct (m w) as [r w1 evs1]. simpl.
  intros ->. by destruct (k a w1).
Qed.

Lemma bind_raise {A B} (m : M A) (k : A → M B) (w : World) (e : exn) :
  res (m w) = Raise e →
  (m ≫= k) w = {| res := Raise e; final := final (m w); events := events (m w) |}.
Proof.
  unfold mbind, M_bind, bind. destruct (m w) as [r w1 evs1]. simpl. by intros ->.
Qed.

Lemma bind_inv_ok {A B} (m : M A) (k : A → M B) (w : World) (b : B) :
  res ((m ≫= k) w) = Ok b →
  ∃ a, res (m w) = Ok a ∧ res (k a (final (m w))) = Ok b.
Proof.
  destruct (res (m w)) as [a | e] eqn:Hm.
  - rewrite (bind_ok _ _ _ _ Hm). simpl. eauto.
  - by rewrite (bind_raise _ _ _ _ Hm).
Qed.

Lemma bind_pure {A B} (m : M A) (k : A → M B) (w : World) (a : A) :
  m w = {| res := Ok a; final := w; events := [] |} →
  (m ≫= k) w = k a w.
Proof.
  intros Hm. unfold mbind, M_bind, bind. rewrite Hm. by destruct (k a w).
Qed.

Lemma for_each_cons {A} (body : A → M unit) x l w :
  for_each body (x :: l) w = (body x ;; for_each body l) w.
Proof. done. Qed.

Lemma for_each_noop {A} (body : A → M unit) (l : list A) w :
  Forall (λ x, body x w = {| res := Ok tt; final := w; events := [] |}) l →
  for_each body l w = {| res := Ok tt; final := w; events := [] |}.
Proof.
  induction 1 as [| x l Hx _ IH]; [done |].
  rewrite for_each_cons, (bind_ok _ _ _ tt) by by rewrite Hx.
  rewrite Hx. simpl. by rewrite IH.
Qed.

Lemma writes_app (evs1 evs2 : list event) :
  writes (evs1 ++ evs2) = writes evs1 ++ writes evs2.
Proof. apply omap_app. Qed.

(** *** [update_record]: records that are not git repositories *)

(** C5: a record with no [repository] field, or whose repository is a
    mapping whose [type] is not ["git"], is returned unchanged by
    [update_record]; the world is left as it was and no request is made
    (no clone, no file opened). *)
Theorem update_record_passthrough (obj : Doc) (temp_folder : string) (w : World) :
  obj !! "repository" = None ∨
  (∃ repo type, obj !! "repository" = Some (JObj repo) ∧
                repo !! "type" = Some type ∧ type ≠ JStr "git") →
  update_record obj temp_folder w = {| res := Ok obj; final := w; events := [] |}.
Proof.
  intros [Hnone | (repo & type & Hrepo & Htype & Hne)]; unfold update_record.
  - by rewrite Hnone.
  - rewrite Hrepo. run. unfold getitem. rewrite Htype. run.
    by destruct (decide (type ≠ JStr "git")).
Qed.

(** C10: when the [repository] field is a mapping without a [type] key,
    [update_record] raises [KeyError] on ["type"]; when the type is
    ["git"] and the mapping has no [url] key, it raises [KeyError] on
    ["url"].  In both cases nothing was cloned or read. *)
Theorem update_record_key_error (obj repo : Doc) (temp_folder : string) (w : World) :
  obj !! "repository" = Some (JObj repo) →
  (repo !! "type" = None →
     update_record obj temp_folder w =
       {| res := Raise (KeyError "type"); final := w; events := [] |}) ∧
  (repo !! "type" = Some (JStr "git") → repo !! "url" = None →
     update_record obj temp_folder w =
       {| res := Raise (KeyError "url"); final := w; events := [] |}).
Proof.
  intros Hrepo. unfold update_record. rewrite Hrepo. split.
  - intros Htype. run. unfold getitem. by rewrite Htype.
  - intros Htype Hurl. run. unfold getitem. rewrite Htype. run.
    destruct (decide (JStr "git" ≠ JStr "git")) as [Hne | _]; [done |].
    by rewrite Hurl.
Qed.

(** *** [init]: the guard on the local server *)

(** C9: when the configuration store holds a local server URL (a non-empty
    one) that differs from [db_url], [init] raises a [ClickException] and
    nothing else happens: no request is sent and the world, configuration
    store included, is unchanged. *)
Theorem init_conflict (db_url : string) (api_url : option string) (w : World)
    (old_db_url : string) :
  local_server_url (config w) = Some old_db_url →
  old_db_url ≠ EmptyString →
  old_db_url ≠ db_url →
  init db_url api_url w =
    {| res := Raise (ClickException
         ("Local database " +:+ q +:+ old_db_url +:+ q +:+
          " already initialized. Switching local databases is not currently supported"));
       final := w; events := [] |}.
Proof.
  intros Hold Hne Hdiff. unfold init. run. rewrite Hold. simpl.
  rewrite bool_decide_eq_true_2 by done.
  rewrite bool_decide_eq_true_2 by congruence.
  done.
Qed.

(** *** [init]: applying one configuration parameter *)

(** The parameter already has the desired value: it is read and not
    written. *)
Lemma apply_config_item_same db_url section param value w :
  strip <$> couch_config w !! config_url db_url section param
    = Some (desired_val value) →
  apply_config_item db_url (section, param, value) w =
    {| res := Ok tt; final := w;
       events := [EvHttpGet (config_url db_url section param)] |}.
Proof.
  intros Hcur. unfold apply_config_item, config_get, config_put. run.
  rewrite Hcur. by destruct (decide _).
Qed.

(** The value differs and the write is answered with status 200: one
    write, then the pause. *)
Lemma apply_config_item_written db_url section param value w :
  strip <$> couch_config w !! config_url db_url section param
    ≠ Some (desired_val value) →
  put_status (config_url db_url section param) (desired_val value) = 200 →
  let o := apply_config_item db_url (section, param, value) w in
  res o = Ok tt ∧
  events o = [EvHttpGet (config_url db_url section param);
              EvHttpPut (config_url db_url section param) (desired_val value);
              EvSleep 1].
Proof.
  intros Hcur Hst. unfold apply_config_item, config_get, config_put. run.
  destruct (decide _) as [_ | Hn]; [| done]. run.
  rewrite Hst. by simpl.
Qed.

(** The value differs and the write is answered with another status: the
    error message cannot be built, [NameError] is raised and the pause is
    not reached. *)
Lemma apply_config_item_failed db_url section param value w :
  strip <$> couch_config w !! config_url db_url section param
    ≠ Some (desired_val value) →
  put_status (config_url db_url section param) (desired_val value) ≠ 200 →
  apply_config_item db_url (section, param, value) w =
    {| res := Raise (NameError "res"); final := w;
       events := [EvHttpGet (config_url db_url section param);
                  EvHttpPut (config_url db_url section param) (desired_val value)] |}.
Proof.
  intros Hcur Hst. unfold apply_config_item, config_get, config_put. run.
  destruct (decide _) as [_ | Hn]; [| done]. run.
  destruct (decide (put_status _ _ = 200)) as [| _]; [done |]. run.
  by destruct (decide (put_status _ _ ≠ 200)).
Qed.

(** A failed write ends the configuration loop: the parameters after it
    are neither read nor written. *)
Lemma apply_config_items_failed db_url section param value rest w :
  strip <$> couch_config w !! config_url db_url section param
    ≠ Some (desired_val value) →
  put_status (config_url db_url section param) (desired_val value) ≠ 200 →
  for_each (apply_config_item db_url) ((section, param, value) :: rest) w =
    {| res := Raise (NameError "res"); final := w;
       events := [EvHttpGet (config_url db_url section param);
                  EvHttpPut (config_url db_url section param) (desired_val value)] |}.
Proof.
  intros Hcur Hst. rewrite for_each_cons.
  rewrite (bind_raise _ _ _ (NameError "res"))
    by by rewrite (apply_config_item_failed _ _ _ _ _ Hcur Hst).
  by rewrite (apply_config_item_failed _ _ _ _ _ Hcur Hst).
Qed.

(** *** [load_fixture]: one record *)

Lemma server_getitem_Some db_name db w :
  dbs w !! db_name = Some db →
  server_getitem db_name w = {| res := Ok db; final := w; events := [] |}.
Proof. intros H. unfold server_getitem. run. by rewrite H. Qed.

Lemma server_getitem_None db_name w :
  dbs w !! db_name = None →
  server_getitem db_name w = {| res := Raise ResourceNotFound; final := w; events := [] |}.
Proof. intros H. unfold server_getitem. run. by rewrite H. Qed.

(** The run of a write on an existing database: accepted when the
    revision carried is the one stored, a conflict otherwise. *)
Lemma db_setitem_run db_name doc_id doc db w :
  dbs w !! db_name = Some db →
  db_setitem db_name doc_id doc w =
    if decide (doc !! "_rev" = db !! doc_id ≫= (.!! "_rev")) then
      {| res := Ok tt;
         final := set_dbs (<[db_name :=
                    <[doc_id := <["_rev" := new_rev (db !! doc_id ≫= (.!! "_rev")) doc]>
                                  (<["_id" := JStr doc_id]> doc)]> db]> (dbs w)) w;
         events := [EvDocPut db_name doc_id doc] |}
    else
      {| res := Raise ResourceConflict; final := w;
         events := [EvDocPut db_name doc_id doc] |}.
Proof.
  intros Hdb. unfold db_setitem, server_getitem. run. rewrite Hdb. simpl.
  by destruct (decide _).
Qed.

Lemma db_setitem_events db_name doc_id doc w :
  events (db_setitem db_name doc_id doc w) = [EvDocPut db_name doc_id doc].
Proof.
  unfold db_setitem, server_getitem. run.
  destruct (dbs w !! db_name); simpl; [| done].
  by destruct (decide _).
Qed.

Lemma lookup_doc_set_dbs_eq w db_name db doc_id doc :
  lookup_doc (set_dbs (<[db_name := <[doc_id := doc]> db]> (dbs w)) w) db_name doc_id
    = Some doc.
Proof. unfold lookup_doc. simpl. rewrite lookup_insert_eq. simpl. apply lookup_insert_eq. Qed.

Lemma lookup_doc_set_dbs_ne w db_name db doc_id doc db_name' doc_id' :
  dbs w !! db_name = Some db →
  (db_name', doc_id') ≠ (db_name, doc_id) →
  lookup_doc (set_dbs (<[db_name := <[doc_id := doc]> db]> (dbs w)) w) db_name' doc_id'
    = lookup_doc w db_name' doc_id'.
Proof.
  intros Hdb Hne. unfold lookup_doc. simpl.
  destruct (decide (db_name = db_name')) as [<- | Hd].
  - rewrite lookup_insert_eq, Hdb. simpl.
    rewrite lookup_insert_ne; [done | congruence].
  - by rewrite lookup_insert_ne.
Qed.

(** One round of the loop of [load_fixture], for a record with a string
    id and a database that exists. *)
Lemma load_fixture_item_run db_name item w db doc_id :
  dbs w !! db_name = Some db →
  item !! "_id" = Some (JStr doc_id) →
  load_fixture_item db_name item w =
    match db !! doc_id with
    | Some old =>
        match old !! "_rev" with
        | Some rev =>
            if decide (<["_rev" := rev]> item = old)
            then {| res := Ok tt; final := w; events := [] |}
            else db_setitem db_name doc_id (<["_rev" := rev]> item) w
        | None => {| res := Raise (KeyError "_rev"); final := w; events := [] |}
        end
    | None => db_setitem db_name doc_id item w
    end.
Proof.
  intros Hdb Hid. unfold load_fixture_item.
  rewrite (bind_pure _ _ _ doc_id);
    [| unfold getitem_id, getitem; run; by rewrite Hid].
  rewrite (bind_pure _ _ _ (db !! doc_id));
    [| unfold db_lookup, server_getitem; run; by rewrite Hdb].
  destruct (db !! doc_id) as [old |]; [| done].
  destruct (old !! "_rev") as [rev |] eqn:Hrev.
  - rewrite (bind_pure _ _ _ rev); [| unfold getitem; by rewrite Hrev].
    by destruct (decide _).
  - unfold getitem. rewrite Hrev. by run.
Qed.

(** The events of one round of the loop of [load_fixture] on a record that
    is in the store. *)
Lemma load_fixture_item_events db_name item w db doc_id old :
  dbs w !! db_name = Some db →
  item !! "_id" = Some (JStr doc_id) →
  db !! doc_id = Some old →
  events (load_fixture_item db_name item w) =
    match old !! "_rev" with
    | Some rev =>
        if decide (<["_rev" := rev]> item = old) then []
        else [EvDocPut db_name doc_id (<["_rev" := rev]> item)]
    | None => []
    end.
Proof.
  intros Hdb Hid Hold. rewrite (load_fixture_item_run _ _ _ _ _ Hdb Hid), Hold.
  destruct (old !! "_rev") as [rev |]; [| done].
  destruct (decide _); [done |]. apply db_setitem_events.
Qed.

(** A record the store already holds is skipped: nothing is written and
    the world stays as it is. *)
Lemma load_fixture_item_settled db_name item w :
  settled w db_name item →
  load_fixture_item db_name item w = {| res := Ok tt; final := w; events := [] |}.
Proof.
  intros (doc_id & old & rev & Hid & Hold & Hrev & Heq).
  unfold lookup_doc in Hold.
  destruct (dbs w !! db_name) as [db |] eqn:Hdb; simpl in Hold; [| done].
  rewrite (load_fixture_item_run _ _ _ _ _ Hdb Hid), Hold, Hrev.
  by destruct (decide _).
Qed.

Lemma load_fixture_item_ok_inv db_name item w :
  res (load_fixture_item db_name item w) = Ok tt →
  ∃ db doc_id, dbs w !! db_name = Some db ∧ item !! "_id" = Some (JStr doc_id).
Proof.
  unfold load_fixture_item, getitem_id, getitem, db_lookup, server_getitem. run.
  destruct (item !! "_id") as [[| | | doc_id | |] |]; simpl; try done.
  destruct (dbs w !! db_name) as [db |]; simpl; [eauto | done].
Qed.

(** What one round of the loop leaves behind when it does not raise. *)
Lemma load_fixture_item_ok db_name item w :
  res (load_fixture_item db_name item w) = Ok tt →
  settled (final (load_fixture_item db_name item w)) db_name item ∧
  frame [(db_name, item !! "_id")] w (final (load_fixture_item db_name item w)).
Proof.
  intros Hres.
  destruct (load_fixture_item_ok_inv _ _ _ Hres) as (db & doc_id & Hdb & Hid).
  rewrite (load_fixture_item_run _ _ _ _ _ Hdb Hid) in Hres |- *. rewrite Hid.
  assert (Hframe : ∀ doc,
    frame [(db_name, Some (JStr doc_id))] w
      (set_dbs (<[db_name := <[doc_id := doc]> db]> (dbs w)) w)).
  { intros doc. split; [done |]. split.
    - intros d Hd. simpl. destruct (decide (db_name = d)) as [<- | Hne].
      + rewrite lookup_insert_eq. eauto.
      + by rewrite lookup_insert_ne.
    - intros d i Hni. apply lookup_doc_set_dbs_ne; [done |].
      intros [= -> ->]. apply Hni. by apply list_elem_of_singleton. }
  assert (Hsame : frame [(db_name, Some (JStr doc_id))] w w).
  { split; [done |]. split; eauto. }
  destruct (db !! doc_id) as [old |] eqn:Hold.
  - destruct (old !! "_rev") as [rev |] eqn:Hrev; [| done].
    destruct (decide (<["_rev" := rev]> item = old)) as [Heq | Hne].
    + simpl. split; [| done].
      exists doc_id, old, rev. unfold lookup_doc. rewrite Hdb. simpl. done.
    + rewrite (db_setitem_run _ _ _ _ _ Hdb) in Hres |- *.
      destruct (decide _) as [Hcarried | ]; [| done]. simpl.
      split; [| apply Hframe].
      eexists doc_id, _, _. split; [done |]. split; [apply lookup_doc_set_dbs_eq |].
      split; [apply lookup_insert_eq |].
      rewrite (insert_id (<["_rev" := rev]> item) "_id" (JStr doc_id)).
      * by rewrite insert_insert_eq.
      * by rewrite lookup_insert_ne.
  - rewrite (db_setitem_run _ _ _ _ _ Hdb) in Hres |- *.
    destruct (decide _) as [Hcarried | ]; [| done]. simpl.
    split; [| apply Hframe].
    eexists doc_id, _, _. split; [done |]. split; [apply lookup_doc_set_dbs_eq |].
    split; [apply lookup_insert_eq |].
    by rewrite (insert_id item "_id" (JStr doc_id)).
Qed.

(** *** [load_fixture]: the loops *)

Lemma frame_refl keys w : frame keys w w.
Proof. split; [done |]. split; eauto. Qed.

Lemma frame_trans keys1 keys2 w1 w2 w3 :
  frame keys1 w1 w2 → frame keys2 w2 w3 → frame (keys1 ++ keys2) w1 w3.
Proof.
  intros (Hc1 & Hd1 & Hl1) (Hc2 & Hd2 & Hl2). split; [congruence |]. split.
  - eauto.
  - intros d i Hni. rewrite Hl2, Hl1; [done | |];
      intros Hin; apply Hni, elem_of_app; auto.
Qed.

Lemma settled_frame keys w w' db_name item :
  settled w db_name item → frame keys w w' →
  (db_name, item !! "_id") ∉ keys →
  settled w' db_name item.
Proof.
  intros (doc_id & old & rev & Hid & Hold & Hrev & Heq) (_ & _ & Hl) Hni.
  exists doc_id, old, rev. rewrite Hl; [done |]. by rewrite <- Hid.
Qed.

(** The records of one database, first pass. *)
Lemma load_fixture_items_ok db_name items w :
  let o := for_each (load_fixture_item db_name) items w in
  res o = Ok tt →
  NoDup (map (λ item : Doc, (db_name, item !! "_id")) items) →
  frame (map (λ item : Doc, (db_name, item !! "_id")) items) w (final o) ∧
  Forall (settled (final o) db_name) items.
Proof.
  revert w. induction items as [| item items IH]; intros w; simpl.
  - intros _ _. split; [apply frame_refl | constructor].
  - intros Hres Hnd. apply NoDup_cons in Hnd as [Hni Hnd].
    change (res ((load_fixture_item db_name item ;;
                  for_each (load_fixture_item db_name) items) w) = Ok tt) in Hres.
    apply bind_inv_ok in Hres as ([] & Hstep & Hrest).
    change (for_each (load_fixture_item db_name) (item :: items) w)
      with ((load_fixture_item db_name item ;;
             for_each (load_fixture_item db_name) items) w).
    rewrite (bind_ok _ _ _ tt Hstep). simpl.
    destruct (load_fixture_item_ok _ _ _ Hstep) as [Hsettled Hframe].
    destruct (IH _ Hrest Hnd) as [Hframe' Hall].
    split.
    + apply (frame_trans [_] _ _ _ _ Hframe Hframe').
    + constructor; [| done]. by eapply settled_frame.
Qed.

(** One database of the fixture. *)
Lemma load_fixture_entry_run db_name items db w :
  dbs w !! db_name = Some db →
  load_fixture_entry (db_name, items) w
    = for_each (load_fixture_item db_name) items w.
Proof.
  intros Hdb. unfold load_fixture_entry. simpl.
  by rewrite (bind_pure _ _ _ db) by by apply server_getitem_Some.
Qed.

Lemma load_fixture_entry_ok_inv db_name items w :
  res (load_fixture_entry (db_name, items) w) = Ok tt →
  is_Some (dbs w !! db_name).
Proof.
  unfold load_fixture_entry. simpl. intros (db & Hdb & _)%bind_inv_ok.
  destruct (dbs w !! db_name) as [db' |] eqn:Hlook; [eauto |].
  by rewrite (server_getitem_None _ _ Hlook) in Hdb.
Qed.

(** All the databases of the fixture, first pass. *)
Lemma load_fixture_loop_ok fixture w :
  let o := load_fixture_loop fixture w in
  res o = Ok tt →
  NoDup (fixture_keys fixture) →
  frame (fixture_keys fixture) w (final o) ∧
  Forall (λ entry, is_Some (dbs (final o) !! entry.1) ∧
                   Forall (settled (final o) entry.1) entry.2) fixture.
Proof.
  unfold load_fixture_loop, fixture_keys.
  revert w. induction fixture as [| [db_name items] fixture IH]; intros w.
  - cbn zeta. intros _ _. split; [apply frame_refl | constructor].
  - cbn zeta. rewrite for_each_cons. intros Hres Hnd.
    cbn [flat_map fst snd] in Hnd |- *.
    apply NoDup_app in Hnd as (Hnd1 & Hdisj & Hnd2).
    apply bind_inv_ok in Hres as ([] & Hentry & Hrest).
    rewrite (bind_ok _ _ _ tt Hentry). cbn [res final events].
    destruct (load_fixture_entry_ok_inv _ _ _ Hentry) as [db Hdb].
    rewrite (load_fixture_entry_run _ _ _ _ Hdb) in Hentry, Hrest |- *.
    destruct (load_fixture_items_ok _ _ _ Hentry Hnd1) as [Hframe1 Hall1].
    destruct (IH _ Hrest Hnd2) as [Hframe2 Hall2].
    split; [by eapply frame_trans |].
    constructor; [| done]. cbn [fst snd]. split.
    + apply Hframe2, Hframe1. by rewrite Hdb.
    + apply Forall_forall. intros item Hitem.
      rewrite Forall_forall in Hall1.
      eapply settled_frame; [by apply Hall1 | exact Hframe2 |].
      intros Hin. eapply Hdisj; [| exact Hin].
      apply list_elem_of_In.
      apply (in_map (λ item : Doc, (db_name, item !! "_id"))).
      by apply list_elem_of_In.
Qed.

(** All the databases of the fixture, when the store holds every record:
    nothing is written. *)
Lemma load_fixture_loop_settled fixture w :
  Forall (λ entry, is_Some (dbs w !! entry.1) ∧
                   Forall (settled w entry.1) entry.2) fixture →
  load_fixture_loop fixture w = {| res := Ok tt; final := w; events := [] |}.
Proof.
  intros Hall. unfold load_fixture_loop. apply for_each_noop.
  eapply Forall_impl; [exact Hall |].
  intros [db_name items] [[db Hdb] Hitems]. cbn [fst snd] in *.
  rewrite (load_fixture_entry_run _ _ _ _ Hdb).
  apply for_each_noop.
  eapply Forall_impl; [exact Hitems |].
  intros item Hs. by apply load_fixture_item_settled.
Qed.

Lemma check_for_local_server_run w :
  check_for_local_server w =
    {| res := if truthy (local_server_url (config w)) then Ok tt
              else Raise (ClickException "No local server selected");
       final := w; events := [] |}.
Proof.
  unfold check_for_local_server. run.
  by destruct (truthy (local_server_url (config w))).
Qed.

(** C3 (as amended): when no two records of the fixture set share a
    database and an [_id], and a first run of [load_fixture] completes, a
    second run with the same fixture set on the store the first run left
    completes as well, writes nothing and leaves the world as it found
    it. *)
Theorem load_fixture_twice (fixture : list (string * list Doc)) (w : World) :
  NoDup (fixture_keys fixture) →
  res (load_fixture fixture w) = Ok tt →
  let w1 := final (load_fixture fixture w) in
  res (load_fixture fixture w1) = Ok tt ∧
  writes (events (load_fixture fixture w1)) = [] ∧
  final (load_fixture fixture w1) = w1.
Proof.
  intros Hnd Hres w1. subst w1. unfold load_fixture in *.
  apply bind_inv_ok in Hres as ([] & Hcheck & Hloop).
  rewrite (bind_ok _ _ _ tt Hcheck). simpl.
  rewrite check_for_local_server_run in Hcheck, Hloop |- *. simpl in *.
  destruct (load_fixture_loop_ok _ _ Hloop Hnd) as [(Hconfig & _ & _) Hall].
  set (w1 := final (load_fixture_loop fixture w)) in *.
  assert (Hcheck1 : res (check_for_local_server w1) = Ok tt).
  { rewrite check_for_local_server_run. simpl. by rewrite Hconfig. }
  rewrite (bind_ok _ _ _ tt Hcheck1). simpl.
  rewrite check_for_local_server_run. simpl.
  by rewrite (load_fixture_loop_settled _ _ Hall).
Qed.


(** *** Comparison up to the revision *)

Lemma insert_rev_eq_iff (item old : Doc) (rev : json) :
  old !! "_rev" = Some rev →
  <["_rev" := rev]> item = old ↔ delete "_rev" item = delete "_rev" old.
Proof.
  intros Hrev. split.
  - intros <-. by rewrite delete_insert_eq.
  - intros Heq. rewrite <- insert_delete_eq, Heq. by apply insert_delete_id.
Qed.

(** *** [update_record]: a git repository *)

Create HintDb quiet.

Lemma quiet_ret {A} (a : A) : quiet (mret a).
Proof. by intros w. Qed.

Lemma quiet_raise {A} (e : exn) : quiet (@raise A e).
Proof. by intros w. Qed.

Lemma quiet_bind {A B} (m : M A) (k : A → M B) :
  quiet m → (∀ a, quiet (k a)) → quiet (m ≫= k).
Proof.
  intros Hm Hk w. destruct (res (m w)) as [a | e] eqn:Hres.
  - rewrite (bind_ok _ _ _ _ Hres). simpl.
    destruct (Hm w) as (Hw & Hd & Hc), (Hk a (final (m w))) as (Hw' & Hd' & Hc').
    rewrite writes_app, Hw, Hw'. split; [done |]. split; congruence.
  - rewrite (bind_raise _ _ _ _ Hres). simpl. apply Hm.
Qed.

Lemma quiet_getitem d key : quiet (getitem d key).
Proof. unfold getitem. destruct (d !! key); [apply quiet_ret | apply quiet_raise]. Qed.

Lemma quiet_subscript v key : quiet (subscript v key).
Proof. destruct v; try apply quiet_raise. apply quiet_getitem. Qed.

Lemma quiet_get_default v key dflt : quiet (get_default v key dflt).
Proof. destruct v; try apply quiet_raise. apply quiet_ret. Qed.

Lemma quiet_as_str v : quiet (as_str v).
Proof. destruct v; try apply quiet_raise. apply quiet_ret. Qed.

Lemma quiet_call_git_clone branch url dir_name cwd :
  quiet (call_git_clone branch url dir_name cwd).
Proof. by intros w. Qed.

Lemma quiet_load_json config_path : quiet (load_json config_path).
Proof.
  intros w. unfold load_json. run.
  by destruct (files (fs w) !! config_path) as [[] |].
Qed.

#[local] Hint Resolve quiet_ret quiet_raise quiet_getitem quiet_subscript
  quiet_get_default quiet_as_str quiet_call_git_clone quiet_load_json : quiet.

(** [update_record] touches the file system only, and writes no document. *)
Lemma update_record_quiet obj temp_folder : quiet (update_record obj temp_folder).
Proof.
  unfold update_record. destruct (obj !! "repository"); [| apply quiet_ret].
  apply quiet_bind; [auto with quiet |]. intros type.
  destruct (decide _); [apply quiet_ret |].
  repeat (apply quiet_bind; [auto with quiet |]; intros ?).
  apply quiet_ret.
Qed.

Lemma update_record_frame obj temp_folder w :
  let o := update_record obj temp_folder w in
  writes (events o) = [] ∧ dbs (final o) = dbs w ∧ config (final o) = config w.
Proof. apply update_record_quiet. Qed.

(** The run of [update_record] on a record whose repository is a git
    repository with a URL and, if any, a branch name. *)
Lemma update_record_git obj repo url branch temp_folder w :
  obj !! "repository" = Some (JObj repo) →
  repo !! "type" = Some (JStr "git") →
  repo !! "url" = Some (JStr url) →
  default (JStr "master") (repo !! "branch") = JStr branch →
  let dir_name := make_dir_name_from_url url in
  let config_path := path_join temp_folder (path_join dir_name "module.json") in
  let w1 := set_fs (git_clone branch url dir_name temp_folder (fs w)).2 w in
  update_record obj temp_folder w =
    {| res := match files (fs w1) !! config_path with
              | None => Raise (IOError config_path)
              | Some FInvalid => Raise ValueError
              | Some (FManifest info) => Ok (info ∪ obj)
              end;
       final := w1;
       events := [EvClone branch url dir_name temp_folder; EvOpen config_path] |}.
Proof.
  intros Hrepo Htype Hurl Hbranch.
  unfold update_record, subscript, getitem, get_default, as_str, call_git_clone,
    load_json.
  rewrite Hrepo. run. rewrite Htype. simpl.
  destruct (decide (JStr "git" ≠ JStr "git")) as [Hne | _]; [done |].
  rewrite Hurl. simpl. rewrite Hbranch. simpl.
  by destruct (files _ !! _) as [[info |] |].
Qed.

(** *** [update_module_types]: one record *)

Lemma db_getitem_Some db_name doc_id db doc w :
  dbs w !! db_name = Some db →
  db !! doc_id = Some doc →
  db_getitem db_name doc_id w = {| res := Ok doc; final := w; events := [] |}.
Proof.
  intros Hdb Hdoc. unfold db_getitem, db_lookup, server_getitem. run.
  rewrite Hdb. simpl. by rewrite Hdoc.
Qed.

(** The loop body on a stored record whose id is not reserved, after the
    read of the record. *)
Lemma update_module_type_run temp_folder _id w db obj :
  dbs w !! FIRMWARE_MODULE_TYPE = Some db →
  db !! _id = Some obj →
  String.prefix "_" _id = false →
  update_module_type temp_folder _id w =
    (model ← lift (FirmwareModuleType obj);
     new_obj ← update_record model temp_folder;
     rev ← getitem obj "_rev";
     if decide (<["_rev" := rev]> new_obj ≠ obj)
     then db_setitem FIRMWARE_MODULE_TYPE _id (<["_rev" := rev]> new_obj)
     else ret tt) w.
Proof.
  intros Hdb Hobj Hpre. unfold update_module_type. rewrite Hpre.
  by rewrite (bind_pure _ _ _ obj) by by eapply db_getitem_Some.
Qed.

(** The run of the loop body on a stored record, once [update_record] has
    returned [new_obj]. *)
Lemma update_module_type_returned temp_folder _id w db obj model new_obj rev :
  dbs w !! FIRMWARE_MODULE_TYPE = Some db →
  db !! _id = Some obj →
  String.prefix "_" _id = false →
  FirmwareModuleType obj = Ok model →
  res (update_record model temp_folder w) = Ok new_obj →
  obj !! "_rev" = Some rev →
  let w1 := final (update_record model temp_folder w) in
  let written := <["_rev" := rev]> new_obj in
  update_module_type temp_folder _id w =
    if decide (written ≠ obj) then
      {| res := res (db_setitem FIRMWARE_MODULE_TYPE _id written w1);
         final := final (db_setitem FIRMWARE_MODULE_TYPE _id written w1);
         events := events (update_record model temp_folder w) ++
                   [EvDocPut FIRMWARE_MODULE_TYPE _id written] |}
    else
      {| res := Ok tt; final := w1;
         events := events (update_record model temp_folder w) |}.
Proof.
  intros Hdb Hobj Hpre Hmodel Hret Hrev. cbn zeta.
  rewrite (update_module_type_run _ _ _ _ _ Hdb Hobj Hpre).
  rewrite (bind_pure _ _ _ model) by (unfold lift; by rewrite Hmodel).
  rewrite (bind_ok _ _ _ new_obj Hret).
  rewrite (bind_pure _ _ _ rev) by (unfold getitem; by rewrite Hrev).
  destruct (decide _).
  - by rewrite db_setitem_events.
  - simpl. by rewrite app_nil_r.
Qed.

(** Whatever happens in the loop body, the only document it can write is
    the merged record under the id it was read from, and with the revision
    it was read with. *)
Lemma update_module_type_writes temp_folder _id w db obj :
  dbs w !! FIRMWARE_MODULE_TYPE = Some db →
  db !! _id = Some obj →
  ∀ wr, wr ∈ writes (events (update_module_type temp_folder _id w)) →
    ∃ doc, wr = (FIRMWARE_MODULE_TYPE, _id, doc) ∧
           is_Some (obj !! "_rev") ∧ doc !! "_rev" = obj !! "_rev".
Proof.
  intros Hdb Hobj wr.
  destruct (String.prefix "_" _id) eqn:Hpre.
  { unfold update_module_type. rewrite Hpre. simpl. by intros ?%elem_of_nil. }
  rewrite (update_module_type_run _ _ _ _ _ Hdb Hobj Hpre).
  destruct (FirmwareModuleType obj) as [model | e] eqn:Hmodel; cycle 1.
  { rewrite (bind_raise _ _ _ e) by done. simpl. by intros ?%elem_of_nil. }
  rewrite (bind_pure _ _ _ model) by done.
  destruct (update_record_frame model temp_folder w) as (Hnow & _ & _).
  destruct (res (update_record model temp_folder w)) as [new_obj | e] eqn:Hret;
    cycle 1.
  { rewrite (bind_raise _ _ _ e Hret). simpl. rewrite Hnow.
    by intros ?%elem_of_nil. }
  rewrite (bind_ok _ _ _ new_obj Hret). cbn [events].
  rewrite writes_app, Hnow. cbn [app].
  destruct (obj !! "_rev") as [rev |] eqn:Hrev; cycle 1.
  { rewrite (bind_raise _ _ _ (KeyError "_rev"))
      by (unfold getitem; by rewrite Hrev).
    unfold getitem. rewrite Hrev. simpl. by intros ?%elem_of_nil. }
  rewrite (bind_pure _ _ _ rev) by (unfold getitem; by rewrite Hrev).
  destruct (decide _).
  - rewrite db_setitem_events. simpl. intros ->%list_elem_of_singleton.
    eexists. split; [done |]. split; [by eauto |]. apply lookup_insert_eq.
  - simpl. by intros ?%elem_of_nil.
Qed.

(** C2: take a record [old] stored under [doc_id].  In [load_fixture], an
    incoming fixture record with that id whose content equals that of
    [old] once the revision is removed from both causes no write; and any
    write the round issues is for [doc_id] and carries the revision of
    [old].  The same holds in [update_module_types] for the record that
    [update_record] returns. *)
Theorem unchanged_content_not_written (w : World) (db : Database) (doc_id : string)
    (old : Doc) :
  db !! doc_id = Some old →
  (∀ db_name item,
     dbs w !! db_name = Some db →
     item !! "_id" = Some (JStr doc_id) →
     let o := load_fixture_item db_name item w in
     (delete "_rev" item = delete "_rev" old → writes (events o) = []) ∧
     (∀ wr, wr ∈ writes (events o) →
        ∃ doc, wr = (db_name, doc_id, doc) ∧
               is_Some (old !! "_rev") ∧ doc !! "_rev" = old !! "_rev")) ∧
  (∀ temp_folder,
     dbs w !! FIRMWARE_MODULE_TYPE = Some db →
     let o := update_module_type temp_folder doc_id w in
     (∀ model new_obj,
        FirmwareModuleType old = Ok model →
        res (update_record model temp_folder w) = Ok new_obj →
        delete "_rev" new_obj = delete "_rev" old →
        writes (events o) = []) ∧
     (∀ wr, wr ∈ writes (events o) →
        ∃ doc, wr = (FIRMWARE_MODULE_TYPE, doc_id, doc) ∧
               is_Some (old !! "_rev") ∧ doc !! "_rev" = old !! "_rev")).
Proof.
  intros Hold. split.
  - intros db_name item Hdb Hid o. subst o.
    rewrite (load_fixture_item_events _ _ _ _ _ _ Hdb Hid Hold).
    destruct (old !! "_rev") as [rev |] eqn:Hrev.
    + split.
      * intros Heq. apply (insert_rev_eq_iff item old rev Hrev) in Heq.
        by destruct (decide _).
      * intros wr. destruct (decide _); simpl; [by intros ?%elem_of_nil |].
        intros ->%list_elem_of_singleton. eexists. split; [done |].
        split; [by eauto |]. apply lookup_insert_eq.
    + split; [done |]. intros wr. simpl. by intros ?%elem_of_nil.
  - intros temp_folder Hdb o. subst o. split.
    + intros model new_obj Hmodel Hret Heq.
      destruct (update_record_frame model temp_folder w) as (Hnow & _ & _).
      destruct (String.prefix "_" doc_id) eqn:Hpre.
      { unfold update_module_type. by rewrite Hpre. }
      destruct (old !! "_rev") as [rev |] eqn:Hrev.
      * rewrite (update_module_type_returned _ _ _ _ _ _ _ _
                   Hdb Hold Hpre Hmodel Hret Hrev).
        apply (insert_rev_eq_iff new_obj old rev Hrev) in Heq.
        destruct (decide _); [done |]. done.
      * rewrite (update_module_type_run _ _ _ _ _ Hdb Hold Hpre).
        rewrite (bind_pure _ _ _ model) by (unfold lift; by rewrite Hmodel).
        rewrite (bind_ok _ _ _ new_obj Hret). cbn [events].
        rewrite (bind_raise _ _ _ (KeyError "_rev"))
          by (unfold getitem; by rewrite Hrev).
        unfold getitem. rewrite Hrev. simpl. by rewrite app_nil_r.
    + by apply (update_module_type_writes _ _ _ db).
Qed.


(** *** [update_record]: the merge *)

(** C1 (as amended): when the manifest of a git record is read,
    [update_record] returns the record overlaid with every key of the
    manifest: a key of the manifest takes the manifest's value, [_id] and
    [_rev] included, and any other key keeps the record's value; so the
    [_id] (the [_rev]) of the output is that of the input when the manifest
    has no [_id] (no [_rev]).  In [update_module_types] the merged record
    is then given the revision of the stored record, and the only write
    is that of this record under the id of the stored one. *)
Theorem update_record_overlay (obj repo : Doc) (url branch temp_folder : string)
    (w : World) (info : Doc) :
  obj !! "repository" = Some (JObj repo) →
  repo !! "type" = Some (JStr "git") →
  repo !! "url" = Some (JStr url) →
  default (JStr "master") (repo !! "branch") = JStr branch →
  files (git_clone branch url (make_dir_name_from_url url) temp_folder (fs w)).2
    !! path_join temp_folder (path_join (make_dir_name_from_url url) "module.json")
    = Some (FManifest info) →
  res (update_record obj temp_folder w) = Ok (info ∪ obj) ∧
  (∀ key, (info ∪ obj) !! key =
            match info !! key with Some v => Some v | None => obj !! key end) ∧
  (info !! "_id" = None → (info ∪ obj) !! "_id" = obj !! "_id") ∧
  (info !! "_rev" = None → (info ∪ obj) !! "_rev" = obj !! "_rev") ∧
  (∀ _id db stored rev,
     dbs w !! FIRMWARE_MODULE_TYPE = Some db →
     db !! _id = Some stored →
     String.prefix "_" _id = false →
     FirmwareModuleType stored = Ok obj →
     stored !! "_rev" = Some rev →
     writes (events (update_module_type temp_folder _id w)) =
       if decide (<["_rev" := rev]> (info ∪ obj) ≠ stored)
       then [(FIRMWARE_MODULE_TYPE, _id, <["_rev" := rev]> (info ∪ obj))]
       else []).
Proof.
  intros Hrepo Htype Hurl Hbranch Hfile.
  pose proof (update_record_git _ _ _ _ temp_folder w Hrepo Htype Hurl Hbranch)
    as Hrun. cbn zeta in Hrun. simpl in Hrun. rewrite Hfile in Hrun.
  assert (Hres : res (update_record obj temp_folder w) = Ok (info ∪ obj))
    by by rewrite Hrun.
  split; [done |]. split; [| split; [| split]].
  - intros key. rewrite lookup_union. by destruct (info !! key), (obj !! key).
  - intros Hnone. by apply lookup_union_r.
  - intros Hnone. by apply lookup_union_r.
  - intros _id db stored rev Hdb Hstored Hpre Hmodel Hrev.
    rewrite (update_module_type_returned _ _ _ _ _ _ _ _
               Hdb Hstored Hpre Hmodel Hres Hrev).
    destruct (update_record_frame obj temp_folder w) as (Hnow & _ & _).
    destruct (decide _); simpl; [| done].
    by rewrite writes_app, Hnow.
Qed.

(** *** [update_record]: a clone that fails *)

(** C7 (as amended): when the clone of a git record fails and leaves no
    manifest at the expected path, [update_record] returns no record: it
    raises the error of opening the manifest.  In [update_module_types]
    the round for that record then writes nothing, leaves the databases as
    they were, and the error ends the loop. *)
Theorem update_record_clone_failed (obj repo : Doc) (url branch temp_folder : string)
    (w : World) :
  obj !! "repository" = Some (JObj repo) →
  repo !! "type" = Some (JStr "git") →
  repo !! "url" = Some (JStr url) →
  default (JStr "master") (repo !! "branch") = JStr branch →
  let dir_name := make_dir_name_from_url url in
  let config_path := path_join temp_folder (path_join dir_name "module.json") in
  (git_clone branch url dir_name temp_folder (fs w)).1 ≠ 0 →
  files (git_clone branch url dir_name temp_folder (fs w)).2 !! config_path = None →
  update_record obj temp_folder w =
    {| res := Raise (IOError config_path);
       final := set_fs (git_clone branch url dir_name temp_folder (fs w)).2 w;
       events := [EvClone branch url dir_name temp_folder; EvOpen config_path] |} ∧
  (∀ _id ids db stored,
     dbs w !! FIRMWARE_MODULE_TYPE = Some db →
     db !! _id = Some stored →
     String.prefix "_" _id = false →
     FirmwareModuleType stored = Ok obj →
     let o := for_each (update_module_type temp_folder) (_id :: ids) w in
     res o = Raise (IOError config_path) ∧
     writes (events o) = [] ∧
     dbs (final o) = dbs w).
Proof.
  intros Hrepo Htype Hurl Hbranch dir_name config_path Hstatus Hfile.
  pose proof (update_record_git _ _ _ _ temp_folder w Hrepo Htype Hurl Hbranch)
    as Hrun. cbn zeta in Hrun. simpl in Hrun.
  fold dir_name config_path in Hrun. rewrite Hfile in Hrun.
  split; [done |].
  intros _id ids db stored Hdb Hstored Hpre Hmodel o. subst o.
  assert (Hres : res (update_record obj temp_folder w) = Raise (IOError config_path))
    by by rewrite Hrun.
  assert (Hround : update_module_type temp_folder _id w =
    {| res := Raise (IOError config_path);
       final := final (update_record obj temp_folder w);
       events := events (update_record obj temp_folder w) |}).
  { rewrite (update_module_type_run _ _ _ _ _ Hdb Hstored Hpre).
    rewrite (bind_pure _ _ _ obj) by (unfold lift; by rewrite Hmodel).
    by rewrite (bind_raise _ _ _ _ Hres). }
  rewrite for_each_cons, (bind_raise _ _ _ (IOError config_path))
    by by rewrite Hround.
  rewrite Hround. simpl.
  destruct (update_record_frame obj temp_folder w) as (Hnow & Hdbs & _).
  done.
Qed.

(** *** [update_module_types]: the scratch directory *)

Lemma update_module_types_run w db :
  dbs w !! FIRMWARE_MODULE_TYPE = Some db →
  let temp_folder := mkdtemp_name (dirs (fs w)) in
  let w1 := set_fs {| files := files (fs w);
                      dirs := {[temp_folder]} ∪ dirs (fs w) |} w in
  let ids := merge_sort (λ a b : string, String.leb a b) (elements (dom db)) in
  let o := for_each (update_module_type temp_folder) ids w1 in
  update_module_types w =
    match res o with
    | Ok _ =>
        {| res := Ok tt;
           final := set_fs
             {| files := filter (λ kv, ¬ below temp_folder kv.1) (files (fs (final o)));
                dirs := filter (λ d, ¬ below temp_folder d) (dirs (fs (final o))) |}
             (final o);
           events := EvMkdtemp temp_folder :: events o ++ [EvRmtree temp_folder] |}
    | Raise e =>
        {| res := Raise e; final := final o;
           events := EvMkdtemp temp_folder :: events o |}
    end.
Proof.
  intros Hdb. cbn zeta. unfold update_module_types.
  rewrite (bind_pure _ _ _ db) by by apply server_getitem_Some.
  unfold mkdtemp, db_iter, server_getitem, rmtree. run. rewrite Hdb. simpl.
  by destruct (for_each _ _ _) as [[[] | e] w2 evs].
Qed.

(** C4 (as amended): when a run of [update_module_types] completes, the
    scratch directory that [mkdtemp] made is gone from the file system, and
    its removal is the last thing the run did. *)
Theorem update_module_types_cleanup (w : World) :
  res (update_module_types w) = Ok tt →
  let temp_folder := mkdtemp_name (dirs (fs w)) in
  (temp_folder ∉ dirs (fs (final (update_module_types w)))) ∧
  last (events (update_module_types w)) = Some (EvRmtree temp_folder).
Proof.
  destruct (dbs w !! FIRMWARE_MODULE_TYPE) as [db |] eqn:Hdb; cycle 1.
  { unfold update_module_types.
    by rewrite (bind_raise _ _ _ ResourceNotFound)
      by by rewrite (server_getitem_None _ _ Hdb). }
  rewrite (update_module_types_run _ _ Hdb). cbn zeta.
  destruct (res (for_each _ _ _)) as [[] | e]; [| done].
  intros _. simpl. split.
  - rewrite elem_of_filter. intros [Hnot _]. apply Hnot.
    unfold below. rewrite bool_decide_eq_true_2 by done. done.
  - by rewrite app_comm_cons, last_snoc.
Qed.


(** *** Loops that keep an invariant *)

Lemma for_each_inv {A} (I : World → Prop) (P : event → Prop)
    (body : A → M unit) (l : list A) :
  (∀ x w, x ∈ l → I w →
     I (final (body x w)) ∧ Forall P (events (body x w))) →
  ∀ w, I w →
    I (final (for_each body l w)) ∧ Forall P (events (for_each body l w)).
Proof.
  induction l as [| x l IH]; intros Hbody w Hw.
  - by split.
  - destruct (Hbody x w) as [Hw1 Hev1]; [by left | done |].
    rewrite for_each_cons.
    destruct (res (body x w)) as [[] | e] eqn:Hres.
    + rewrite (bind_ok _ _ _ tt Hres). simpl.
      destruct (IH (λ y w' Hy, Hbody y w' (list_elem_of_further _ _ _ Hy))
                  (final (body x w)) Hw1) as [Hw2 Hev2].
      split; [done |]. by apply Forall_app.
    + by rewrite (bind_raise _ _ _ e Hres).
Qed.

Lemma for_each_raise {A} (Q : exn → Prop) (body : A → M unit) (l : list A) :
  (∀ x w e, res (body x w) = Raise e → Q e) →
  ∀ w e, res (for_each body l w) = Raise e → Q e.
Proof.
  intros Hbody. induction l as [| x l IH]; intros w e; [done |].
  rewrite for_each_cons.
  destruct (res (body x w)) as [[] | e'] eqn:Hres.
  - rewrite (bind_ok _ _ _ tt Hres). simpl. apply IH.
  - rewrite (bind_raise _ _ _ e' Hres). simpl. intros [= <-]. eauto.
Qed.

(** *** [init]: the configuration loop and the databases *)

(** One round of the configuration loop changes nothing but the server's
    configuration, sends configuration requests only, and can fail in one
    way only. *)
Lemma apply_config_item_keeps db_url item w :
  let o := apply_config_item db_url item w in
  (config (final o) = config w ∧ dbs (final o) = dbs w ∧ fs (final o) = fs w) ∧
  Forall config_event (events o) ∧
  (res o = Ok tt ∨ res o = Raise (NameError "res")).
Proof.
  destruct item as [[section param] value].
  unfold apply_config_item, config_get, config_put. run.
  destruct (decide (strip <$> _ ≠ _)); simpl;
    [| by repeat split; auto; repeat constructor].
  destruct (decide (put_status _ _ = 200)) as [Hst | Hst]; simpl.
  - destruct (decide (put_status _ _ ≠ 200)); [done |]. simpl.
    repeat split; auto; repeat constructor.
  - destruct (decide (put_status _ _ ≠ 200)); [| done]. simpl.
    repeat split; auto; repeat constructor.
Qed.

Lemma config_loop_keeps db_url items w :
  let o := for_each (apply_config_item db_url) items w in
  (config (final o) = config w ∧ dbs (final o) = dbs w ∧ fs (final o) = fs w) ∧
  Forall config_event (events o).
Proof.
  apply (for_each_inv
           (λ w', config w' = config w ∧ dbs w' = dbs w ∧ fs w' = fs w)
           config_event); [| done].
  intros item w' _ (Hc & Hd & Hf).
  destruct (apply_config_item_keeps db_url item w') as ((Hc' & Hd' & Hf') & Hev & _).
  split; [| done]. split; [congruence |]. split; congruence.
Qed.

Lemma config_loop_raise db_url items w e :
  res (for_each (apply_config_item db_url) items w) = Raise e →
  e = NameError "res".
Proof.
  apply (for_each_raise (λ e, e = NameError "res")).
  intros item w' e' Hres.
  destruct (apply_config_item_keeps db_url item w') as (_ & _ & [Hok | Hraise]);
    congruence.
Qed.

(** The loop over [all_dbs]: it cannot fail, it creates what is missing and
    leaves the databases that exist as they are. *)
Lemma get_or_create_loop names w :
  let o := for_each get_or_create names w in
  res o = Ok tt ∧
  events o = map EvGetOrCreate names ∧
  (config (final o) = config w ∧ couch_config (final o) = couch_config w ∧
   fs (final o) = fs w) ∧
  (∀ name db, dbs w !! name = Some db → dbs (final o) !! name = Some db) ∧
  (∀ name, name ∈ names → is_Some (dbs (final o) !! name)) ∧
  (∀ name, name ∉ names → dbs (final o) !! name = dbs w !! name).
Proof.
  revert w. induction names as [| name names IH]; intros w.
  - cbn. repeat split; auto. by intros name ?%elem_of_nil.
  - cbn zeta. rewrite for_each_cons.
    assert (Hstep : get_or_create name w =
      {| res := Ok tt;
         final := match dbs w !! name with
                  | Some _ => w
                  | None => set_dbs (<[name := ∅]> (dbs w)) w
                  end;
         events := [EvGetOrCreate name] |}) by done.
    rewrite (bind_ok _ _ _ tt) by by rewrite Hstep.
    rewrite Hstep. cbn [res final events].
    set (w1 := match dbs w !! name with Some _ => w | None => _ end).
    destruct (IH w1) as (Hres & Hev & (Hc & Hcc & Hf) & Hkeep & Hnew & Hother).
    assert (Hw1 : config w1 = config w ∧ couch_config w1 = couch_config w ∧
                  fs w1 = fs w ∧
                  (∀ n db, dbs w !! n = Some db → dbs w1 !! n = Some db) ∧
                  is_Some (dbs w1 !! name) ∧
                  (∀ n, n ≠ name → dbs w1 !! n = dbs w !! n)).
    { subst w1. destruct (dbs w !! name) as [db |] eqn:Hdb; simpl.
      - repeat split; eauto.
      - repeat split; auto.
        + intros n db Hn. rewrite lookup_insert_ne; [done | congruence].
        + rewrite lookup_insert_eq. eauto.
        + intros n Hn. by rewrite lookup_insert_ne. }
    destruct Hw1 as (Hc1 & Hcc1 & Hf1 & Hkeep1 & Hnew1 & Hother1).
    split; [done |]. split; [by rewrite Hev |].
    split; [split; [congruence |]; split; congruence |].
    split; [by eauto |]. split.
    + intros n [-> | Hn]%elem_of_cons; [| by auto].
      destruct Hnew1 as [db Hdb]. eauto.
    + intros n Hn. apply not_elem_of_cons in Hn as [Hne Hn].
      rewrite Hother by done. by apply Hother1.
Qed.


(** *** [init]: past the guard *)

(** When the guard lets [init] through and the configuration loop fails,
    [init] fails the same way and does nothing more. *)
Lemma init_run_raise db_url api_url w e :
  truthy (local_server_url (config w)) = false ∨
    local_server_url (config w) = Some db_url →
  res (for_each (apply_config_item db_url)
         (config_items (generate_config api_url)) w) = Raise e →
  init db_url api_url w =
    {| res := Raise e;
       final := final (for_each (apply_config_item db_url)
                         (config_items (generate_config api_url)) w);
       events := events (for_each (apply_config_item db_url)
                           (config_items (generate_config api_url)) w) |}.
Proof.
  intros Hguard Hloop. unfold init. rewrite (bind_pure _ _ _ w) by done.
  assert (Hif : truthy (local_server_url (config w)) &&
                bool_decide (local_server_url (config w) ≠ Some db_url) = false).
  { destruct Hguard as [-> | ->]; [done |].
    rewrite (bool_decide_eq_false_2 (Some db_url ≠ Some db_url)) by (intros H; by apply H).
    apply andb_false_r. }
  rewrite Hif. by rewrite (bind_raise _ _ _ e Hloop).
Qed.

(** When the guard lets [init] through and the configuration loop
    completes, so does [init]: the whole run. *)
Lemma init_run_ok db_url api_url w :
  truthy (local_server_url (config w)) = false ∨
    local_server_url (config w) = Some db_url →
  res (for_each (apply_config_item db_url)
         (config_items (generate_config api_url)) w) = Ok tt →
  let o1 := for_each (apply_config_item db_url)
              (config_items (generate_config api_url)) w in
  let w2 := final (for_each get_or_create all_dbs (final o1)) in
  init db_url api_url w =
    {| res := Ok tt;
       final := set_config
         {| local_server_url := Some db_url;
            cloud_server_url := cloud_server_url (config w2);
            cloud_server_farm_name := cloud_server_farm_name (config w2) |} w2;
       events := events o1 ++ map EvGetOrCreate all_dbs ++
                 [EvEcho "Pushing design documents"; EvPushDesign design_path] ++
                 replication_events (config w2) db_url |}.
Proof.
  intros Hguard Hloop. cbn zeta. unfold init. rewrite (bind_pure _ _ _ w) by done.
  assert (Hif : truthy (local_server_url (config w)) &&
                bool_decide (local_server_url (config w) ≠ Some db_url) = false).
  { destruct Hguard as [-> | ->]; [done |].
    rewrite (bool_decide_eq_false_2 (Some db_url ≠ Some db_url)) by (intros H; by apply H).
    apply andb_false_r. }
  rewrite Hif. rewrite (bind_ok _ _ _ tt Hloop).
  set (w1 := final (for_each (apply_config_item db_url) _ w)).
  destruct (get_or_create_loop all_dbs w1) as (Hres & Hev & _).
  rewrite (bind_ok _ _ _ tt Hres). rewrite Hev.
  set (w2 := final (for_each get_or_create all_dbs w1)).
  unfold replication_events. run.
  destruct (truthy (cloud_server_url (config w2))); simpl; [| done].
  by destruct (truthy (cloud_server_farm_name (config w2))).
Qed.

(** A completed [init] went through the guard and through the
    configuration loop. *)
Lemma init_ok_inv db_url api_url w :
  res (init db_url api_url w) = Ok tt →
  (truthy (local_server_url (config w)) = false ∨
     local_server_url (config w) = Some db_url) ∧
  res (for_each (apply_config_item db_url)
         (config_items (generate_config api_url)) w) = Ok tt.
Proof.
  intros Hres.
  assert (Hguard : truthy (local_server_url (config w)) = false ∨
                   local_server_url (config w) = Some db_url).
  { destruct (truthy (local_server_url (config w))) eqn:Htruthy; [| by left].
    destruct (decide (local_server_url (config w) = Some db_url)) as [| Hne];
      [by right |].
    unfold init in Hres. rewrite (bind_pure _ _ _ w) in Hres by done.
    rewrite Htruthy, (bool_decide_eq_true_2 _ Hne) in Hres. done. }
  split; [done |].
  destruct (res (for_each (apply_config_item db_url) _ w)) as [[] | e] eqn:Hloop;
    [done |].
  by rewrite (init_run_raise _ _ _ _ Hguard Hloop) in Hres.
Qed.


(** The configuration loop on a server that already holds every desired
    value: one read for each parameter, and nothing changes. *)
Lemma config_loop_configured db_url items w :
  Forall (configured db_url w) items →
  for_each (apply_config_item db_url) items w =
    {| res := Ok tt; final := w;
       events := map EvHttpGet (config_urls db_url items) |}.
Proof.
  induction 1 as [| [[section param] value] items Hitem _ IH]; [done |].
  pose proof (apply_config_item_same db_url section param value w Hitem) as Hstep.
  rewrite for_each_cons, (bind_ok _ _ _ tt) by by rewrite Hstep.
  rewrite Hstep. cbn [res final events]. by rewrite IH.
Qed.


(** X2: when [init] is let through and the server already holds the
    desired value of every parameter, [init] completes without a single
    configuration write or pause: it reads each parameter once, asks for
    each database, pushes the design documents and sets up replication as
    the configuration store says. *)
Theorem init_configured_reads_only (db_url : string) (api_url : option string)
    (w : World) :
  truthy (local_server_url (config w)) = false ∨
    local_server_url (config w) = Some db_url →
  Forall (configured db_url w) (config_items (generate_config api_url)) →
  res (init db_url api_url w) = Ok tt ∧
  events (init db_url api_url w) =
    map EvHttpGet (config_urls db_url (config_items (generate_config api_url))) ++
    map EvGetOrCreate all_dbs ++
    [EvEcho "Pushing design documents"; EvPushDesign design_path] ++
    replication_events (config w) db_url ∧
  couch_config (final (init db_url api_url w)) = couch_config w.
Proof.
  intros Hguard Hall.
  pose proof (config_loop_configured _ _ _ Hall) as Hloop.
  rewrite (init_run_ok _ _ _ Hguard) by by rewrite Hloop.
  cbn zeta. rewrite Hloop. cbn [res final events couch_config set_config].
  destruct (get_or_create_loop all_dbs w) as (_ & _ & (Hc & Hcc & _) & _).
  cbn zeta in *. by rewrite Hc, Hcc.
Qed.

Lemma elem_of_replication_events c db_url e :
  e ∈ replication_events c db_url ↔
    truthy (cloud_server_url c) = true ∧
    (e = EvEcho "Setting up replication with cloud server" ∨
     e = EvReplicateGlobal db_url ∨
     (truthy (cloud_server_farm_name c) = true ∧ e = EvReplicatePerFarm db_url)).
Proof using Type.
  unfold replication_events.
  destruct (truthy (cloud_server_url c)), (truthy (cloud_server_farm_name c));
    simpl; rewrite ?elem_of_cons, ?elem_of_nil; split.
  - intros [-> | [-> | [-> | []]]]; auto.
  - intros [_ [-> | [-> | [_ ->]]]]; auto.
  - intros [-> | [-> | []]]; auto.
  - intros [_ [-> | [-> | [[=] _]]]]; auto.
  - intros [].
  - intros [[=] _].
  - intros [].
  - intros [[=] _].
Qed.

(** X3: in a run of [init] that completes, replication of the global
    databases is set up exactly when a cloud server is selected, and
    replication of the farm's databases exactly when a farm name is
    selected as well. *)
Theorem init_replication (db_url : string) (api_url : option string) (w : World) :
  res (init db_url api_url w) = Ok tt →
  (EvReplicateGlobal db_url ∈ events (init db_url api_url w)
     ↔ truthy (cloud_server_url (config w)) = true) ∧
  (EvReplicatePerFarm db_url ∈ events (init db_url api_url w)
     ↔ truthy (cloud_server_url (config w)) = true ∧
       truthy (cloud_server_farm_name (config w)) = true).
Proof using urljoin generate_config put_status all_dbs design_path.
  intros Hres. destruct (init_ok_inv _ _ _ Hres) as [Hguard Hloop].
  rewrite (init_run_ok _ _ _ Hguard Hloop). cbn zeta. cbn [events].
  destruct (config_loop_keeps db_url (config_items (generate_config api_url)) w)
    as ((Hc & _ & _) & Hev).
  destruct (get_or_create_loop all_dbs
              (final (for_each (apply_config_item db_url)
                        (config_items (generate_config api_url)) w)))
    as (_ & _ & (Hc' & _ & _) & _).
  cbn zeta in *. rewrite Hc', Hc.
  rewrite Forall_forall in Hev.
  assert (Hgoc : ∀ e, e ∈ map EvGetOrCreate all_dbs → ∃ name, e = EvGetOrCreate name).
  { intros e (name & <- & _)%list_elem_of_In%in_map_iff. eauto. }
  assert (Hfix : ∀ e, e ∈ [EvEcho "Pushing design documents"; EvPushDesign design_path] →
                      e = EvEcho "Pushing design documents" ∨ e = EvPushDesign design_path).
  { intros e. rewrite !elem_of_cons, elem_of_nil. intros [-> | [-> | []]]; auto. }
  split.
  - rewrite !elem_of_app, elem_of_replication_events. split.
    + intros [Hin | [Hin | [Hin | Hin]]].
      * by apply Hev in Hin.
      * by apply Hgoc in Hin as [name ?].
      * by apply Hfix in Hin as [? | ?].
      * by destruct Hin.
    + intros Hcloud. do 3 right. auto.
  - rewrite !elem_of_app, elem_of_replication_events. split.
    + intros [Hin | [Hin | [Hin | Hin]]].
      * by apply Hev in Hin.
      * by apply Hgoc in Hin as [name ?].
      * by apply Hfix in Hin as [? | ?].
      * destruct Hin as [Hcloud [? | [? | [Hfarm _]]]]; done.
    + intros [Hcloud Hfarm]. do 3 right. auto.
Qed.

Lemma config_loop_head db_url section param value rest w :
  head (events (for_each (apply_config_item db_url)
                  ((section, param, value) :: rest) w))
    = Some (EvHttpGet (config_url db_url section param)).
Proof.
  assert (Hhead : ∃ evs, events (apply_config_item db_url (section, param, value) w)
                         = EvHttpGet (config_url db_url section param) :: evs).
  { unfold apply_config_item, config_get, config_put. run.
    destruct (decide (strip <$> _ ≠ _)); simpl; [| by eauto].
    destruct (decide (put_status _ _ = 200)); simpl;
      destruct (decide (put_status _ _ ≠ 200)); simpl; by eauto. }
  destruct Hhead as [evs Hevs]. rewrite for_each_cons.
  destruct (res (apply_config_item db_url (section, param, value) w))
    as [[] | e] eqn:Hres.
  - rewrite (bind_ok _ _ _ tt Hres). cbn [events]. by rewrite Hevs.
  - rewrite (bind_raise _ _ _ e Hres). cbn [events]. by rewrite Hevs.
Qed.

(** X4: when no local server is recorded (unset or empty), or the one
    recorded is [db_url] itself, [init] is not refused: it never ends with
    a [ClickException], and its first act is to read the first
    configuration parameter. *)
Theorem init_not_refused (db_url : string) (api_url : option string) (w : World) :
  truthy (local_server_url (config w)) = false ∨
    local_server_url (config w) = Some db_url →
  (∀ message, res (init db_url api_url w) ≠ Raise (ClickException message)) ∧
  (∀ section param value rest,
     config_items (generate_config api_url) = (section, param, value) :: rest →
     head (events (init db_url api_url w))
       = Some (EvHttpGet (config_url db_url section param))).
Proof.
  intros Hguard.
  destruct (res (for_each (apply_config_item db_url)
                   (config_items (generate_config api_url)) w))
    as [[] | e] eqn:Hloop.
  - rewrite (init_run_ok _ _ _ Hguard Hloop). cbn zeta. split; [done |].
    intros section param value rest Hitems. cbn [events].
    rewrite Hitems.
    pose proof (config_loop_head db_url section param value rest w) as Hhead.
    by destruct (events (for_each _ _ w)).
  - rewrite (init_run_raise _ _ _ _ Hguard Hloop). cbn [res events]. split.
    + intros message [= ->]. by apply config_loop_raise in Hloop.
    + intros section param value rest Hitems. rewrite Hitems.
      apply config_loop_head.
Qed.

(** *** [init]: the body of a configuration write *)

Lemma rstrip_nonspace_end (s : string) (c : ascii) :
  is_space c = false →
  rstrip (s +:+ String c EmptyString) = s +:+ String c EmptyString.
Proof.
  intros Hc. induction s as [| a s IH]; simpl.
  - by rewrite Hc.
  - rewrite IH. by destruct s.
Qed.

(** The desired value begins and ends with a double quote, so stripping
    it changes nothing. *)
Lemma strip_desired_val (value : string) :
  strip (desired_val value) = desired_val value.
Proof.
  unfold strip, desired_val, q.
  change (String dquote EmptyString +:+ escape_quotes value +:+ String dquote EmptyString)
    with (String dquote (escape_quotes value) +:+ String dquote EmptyString).
  by rewrite rstrip_nonspace_end.
Qed.

Lemma escape_quotes_head (s r : string) : escape_quotes s ≠ String dquote r.
Proof.
  destruct s as [| c s]; simpl; [done |].
  destruct (decide (c = dquote)); [done | congruence].
Qed.

Lemma escape_quotes_inj (s1 s2 : string) :
  escape_quotes s1 = escape_quotes s2 → s1 = s2.
Proof.
  revert s2. induction s1 as [| c1 s1 IH]; intros [| c2 s2]; simpl.
  - done.
  - by destruct (decide (c2 = dquote)).
  - by destruct (decide (c1 = dquote)).
  - destruct (decide (c1 = dquote)) as [-> | Hc1],
      (decide (c2 = dquote)) as [-> | Hc2].
    + intros [= Heq]. by rewrite (IH _ Heq).
    + intros [= <- Heq]. symmetry in Heq. by apply escape_quotes_head in Heq.
    + intros [= -> Heq]. by apply escape_quotes_head in Heq.
    + intros [= -> Heq]. by rewrite (IH _ Heq).
Qed.

Lemma append_char_inj (s1 s2 : string) (c : ascii) :
  s1 +:+ String c EmptyString = s2 +:+ String c EmptyString → s1 = s2.
Proof.
  revert s2. induction s1 as [| a1 s1 IH]; intros [| a2 s2]; simpl.
  - done.
  - intros [= _ Heq]. by destruct s2.
  - intros [= _ Heq]. by destruct s1.
  - intros [= -> Heq]. by rewrite (IH _ Heq).
Qed.

(** X6: two values give the same desired body only when they are the same
    value: the escaping of the double quotes loses nothing, and comparing
    the bodies compares the values. *)
Theorem desired_val_inj (value1 value2 : string) :
  desired_val value1 = desired_val value2 ↔ value1 = value2.
Proof.
  split; [| by intros ->].
  unfold desired_val, q. simpl. intros [= Heq].
  by apply append_char_inj, escape_quotes_inj in Heq.
Qed.

(** *** [init]: a second run *)

(** One round of the configuration loop whose write, if any, is answered
    with status 200: the server then holds the desired value, and no other
    parameter has changed. *)
Lemma apply_config_item_ok db_url item w :
  put_status (config_url db_url item.1.1 item.1.2) (desired_val item.2) = 200 →
  let o := apply_config_item db_url item w in
  res o = Ok tt ∧
  configured db_url (final o) item ∧
  (∀ url, url ≠ config_url db_url item.1.1 item.1.2 →
     couch_config (final o) !! url = couch_config w !! url).
Proof.
  destruct item as [[section param] value]. cbn [fst snd]. intros Hst. cbn zeta.
  unfold configured. cbn [fst snd].
  destruct (decide (strip <$> couch_config w !! config_url db_url section param
                    = Some (desired_val value))) as [Hcur | Hcur].
  - by rewrite (apply_config_item_same _ _ _ _ _ Hcur).
  - unfold apply_config_item, config_get, config_put. run.
    destruct (decide (strip <$> _ ≠ _)); [| done]. simpl. rewrite Hst. simpl.
    split; [done |]. split.
    + rewrite lookup_insert_eq. simpl. by rewrite strip_desired_val.
    + intros url Hne. by rewrite lookup_insert_ne.
Qed.

(** The configuration loop with every write answered with status 200, on
    parameters with distinct URLs: afterwards the server holds every
    desired value. *)
Lemma config_loop_ok db_url items w :
  (∀ item, item ∈ items →
     put_status (config_url db_url item.1.1 item.1.2) (desired_val item.2) = 200) →
  NoDup (config_urls db_url items) →
  let o := for_each (apply_config_item db_url) items w in
  res o = Ok tt ∧
  Forall (configured db_url (final o)) items ∧
  (∀ url, url ∉ config_urls db_url items →
     couch_config (final o) !! url = couch_config w !! url).
Proof.
  revert w. induction items as [| item items IH]; intros w Hst Hnd; cbn zeta.
  - by repeat split.
  - cbn in Hnd. apply NoDup_cons in Hnd as [Hni Hnd].
    destruct (apply_config_item_ok db_url item w) as (Hres & Hitem & Hother);
      [apply Hst; by left |].
    rewrite for_each_cons, (bind_ok _ _ _ tt Hres). cbn [res final events].
    destruct (IH (final (apply_config_item db_url item w))) as (Hres' & Hall & Hother');
      [intros i Hi; apply Hst; by right | done |].
    split; [done |]. split.
    + constructor; [| done]. unfold configured in *.
      by rewrite Hother'.
    + intros url Hurl. cbn in Hurl. apply not_elem_of_cons in Hurl as [Hne Hurl].
      rewrite Hother' by done. by apply Hother.
Qed.

(** X5: let [init] be let through, with parameters of distinct URLs and
    every configuration write answered with status 200.  Then [init]
    completes, and a second [init] with the same arguments, on the world
    the first one left, completes too and sends no configuration write and
    makes no pause. *)
Theorem init_twice (db_url : string) (api_url : option string) (w : World) :
  truthy (local_server_url (config w)) = false ∨
    local_server_url (config w) = Some db_url →
  NoDup (config_urls db_url (config_items (generate_config api_url))) →
  (∀ item, item ∈ config_items (generate_config api_url) →
     put_status (config_url db_url item.1.1 item.1.2) (desired_val item.2) = 200) →
  res (init db_url api_url w) = Ok tt ∧
  let w' := final (init db_url api_url w) in
  res (init db_url api_url w') = Ok tt ∧
  Forall (λ e, match e with EvHttpPut _ _ | EvSleep _ => False | _ => True end)
    (events (init db_url api_url w')).
Proof.
  intros Hguard Hnd Hst.
  destruct (config_loop_ok db_url _ w Hst Hnd) as (Hloop & Hall & _).
  rewrite (init_run_ok _ _ _ Hguard Hloop). cbn zeta. cbn [res final].
  split; [done |].
  set (w1 := final (for_each (apply_config_item db_url) _ w)) in *.
  destruct (get_or_create_loop all_dbs w1) as (_ & _ & (_ & Hcc & _) & _).
  cbn zeta in Hcc.
  set (w2 := final (for_each get_or_create all_dbs w1)) in *.
  set (w' := set_config _ w2).
  assert (Hguard' : truthy (local_server_url (config w')) = false ∨
                    local_server_url (config w') = Some db_url) by by right.
  assert (Hall' : Forall (configured db_url w')
                    (config_items (generate_config api_url))).
  { eapply Forall_impl; [exact Hall |]. intros item Hitem.
    unfold configured in *. subst w'. simpl. by rewrite Hcc. }
  pose proof (config_loop_configured _ _ _ Hall') as Hloop'.
  rewrite (init_run_ok _ _ _ Hguard') by by rewrite Hloop'.
  cbn zeta. rewrite Hloop'. cbn [res final events]. split; [done |].
  repeat apply Forall_app_2.
  - apply Forall_forall. by intros e (url & <- & _)%list_elem_of_In%in_map_iff.
  - apply Forall_forall. by intros e (name & <- & _)%list_elem_of_In%in_map_iff.
  - by repeat constructor.
  - apply Forall_forall. intros e Hin%elem_of_replication_events.
    by destruct Hin as (_ & [-> | [-> | [_ ->]]]).
Qed.


(** *** [load_fixture]: what a run writes and what it leaves alone *)

Lemma elem_of_writes (evs : list event) db_name doc_id doc :
  (db_name, doc_id, doc) ∈ writes evs ↔ EvDocPut db_name doc_id doc ∈ evs.
Proof.
  unfold writes. rewrite list_elem_of_omap. split.
  - intros (e & He & Heq). destruct e; try done. by injection Heq as -> -> ->.
  - intros He. by exists (EvDocPut db_name doc_id doc).
Qed.

Lemma frame_mono keys1 keys2 w w' :
  (∀ key, key ∈ keys1 → key ∈ keys2) → frame keys1 w w' → frame keys2 w w'.
Proof.
  intros Hsub (Hc & Hd & Hl). split; [done |]. split; [done |].
  intros d i Hni. apply Hl. intros Hin. by apply Hni, Hsub.
Qed.

Lemma frame_trans_same keys w1 w2 w3 :
  frame keys w1 w2 → frame keys w2 w3 → frame keys w1 w3.
Proof.
  intros H12 H23. apply (frame_mono (keys ++ keys)).
  - by intros key [? | ?]%elem_of_app.
  - by eapply frame_trans.
Qed.

Lemma frame_set_dbs w db_name db doc_id doc :
  dbs w !! db_name = Some db →
  frame [(db_name, Some (JStr doc_id))] w
    (set_dbs (<[db_name := <[doc_id := doc]> db]> (dbs w)) w).
Proof.
  intros Hdb. split; [done |]. split.
  - intros d Hd. simpl. destruct (decide (db_name = d)) as [<- | Hne].
    + rewrite lookup_insert_eq. eauto.
    + by rewrite lookup_insert_ne.
  - intros d i Hni. apply lookup_doc_set_dbs_ne; [done |].
    intros [= -> ->]. apply Hni. by apply list_elem_of_singleton.
Qed.

Lemma fixture_keys_elem fixture db_name items (item : Doc) :
  (db_name, items) ∈ fixture → item ∈ items →
  (db_name, item !! "_id") ∈ fixture_keys fixture.
Proof.
  intros Hentry Hitem. unfold fixture_keys.
  apply list_elem_of_In, in_flat_map. exists (db_name, items).
  split; [by apply list_elem_of_In |]. simpl.
  apply (in_map (λ item : Doc, (db_name, item !! "_id"))). by apply list_elem_of_In.
Qed.

(** One round of the loop of [load_fixture], whatever the world: it
    touches at most the document named by the record, and writes at most
    once, the record itself up to the revision. *)
Lemma load_fixture_item_step db_name item w :
  let o := load_fixture_item db_name item w in
  frame [(db_name, item !! "_id")] w (final o) ∧
  (events o = [] ∨
   ∃ doc_id doc, events o = [EvDocPut db_name doc_id doc] ∧
                 item !! "_id" = Some (JStr doc_id) ∧
                 delete "_rev" doc = delete "_rev" item).
Proof.
  cbn zeta.
  destruct (item !! "_id") as [v |] eqn:Hid; cycle 1.
  { unfold load_fixture_item, getitem_id, getitem. rewrite Hid. run.
    split; [apply frame_refl | by left]. }
  destruct v as [| b | n | doc_id | l | m];
    try (unfold load_fixture_item, getitem_id, getitem; rewrite Hid; run;
         split; [apply frame_refl | by left]).
  destruct (dbs w !! db_name) as [db |] eqn:Hdb; cycle 1.
  { unfold load_fixture_item, getitem_id, getitem, db_lookup, server_getitem.
    rewrite Hid. run. rewrite Hdb. simpl. split; [apply frame_refl | by left]. }
  rewrite (load_fixture_item_run _ _ _ _ _ Hdb Hid).
  destruct (db !! doc_id) as [old |] eqn:Hold.
  - destruct (old !! "_rev") as [rev |] eqn:Hrev;
      [| split; [apply frame_refl | by left]].
    destruct (decide (<["_rev" := rev]> item = old));
      [split; [apply frame_refl | by left] |].
    rewrite (db_setitem_run _ _ _ _ _ Hdb).
    destruct (decide _); simpl.
    + split; [by apply frame_set_dbs |]. right. eexists _, _.
      split; [done |]. split; [done |]. apply delete_insert_eq.
    + split; [apply frame_refl |]. right. eexists _, _.
      split; [done |]. split; [done |]. apply delete_insert_eq.
  - rewrite (db_setitem_run _ _ _ _ _ Hdb).
    destruct (decide _); simpl.
    + split; [by apply frame_set_dbs |]. right. by eexists _, _.
    + split; [apply frame_refl |]. right. by eexists _, _.
Qed.

(** The run of [load_fixture], whatever its outcome: the world it leaves
    and the events it produced. *)
Lemma load_fixture_inv fixture w :
  let o := load_fixture fixture w in
  frame (fixture_keys fixture) w (final o) ∧
  Forall (λ e, ∀ db_name doc_id doc, e = EvDocPut db_name doc_id doc →
            ∃ items item, (db_name, items) ∈ fixture ∧ item ∈ items ∧
                          item !! "_id" = Some (JStr doc_id) ∧
                          delete "_rev" doc = delete "_rev" item)
    (events o).
Proof.
  cbn zeta. unfold load_fixture.
  destruct (truthy (local_server_url (config w))) eqn:Hlocal; cycle 1.
  { rewrite (bind_raise _ _ _ (ClickException "No local server selected"))
      by by rewrite check_for_local_server_run, Hlocal.
    rewrite check_for_local_server_run. simpl. split; [apply frame_refl | done]. }
  rewrite (bind_pure _ _ _ tt) by by rewrite check_for_local_server_run, Hlocal.
  unfold load_fixture_loop.
  apply (for_each_inv (frame (fixture_keys fixture) w)); [| apply frame_refl].
  intros [db_name items] w1 Hentry Hw1.
  destruct (dbs w1 !! db_name) as [db |] eqn:Hdb; cycle 1.
  { unfold load_fixture_entry. cbn [fst snd].
    rewrite (bind_raise _ _ _ ResourceNotFound)
      by by rewrite (server_getitem_None _ _ Hdb).
    by rewrite (server_getitem_None _ _ Hdb). }
  rewrite (load_fixture_entry_run _ _ _ _ Hdb).
  apply (for_each_inv (frame (fixture_keys fixture) w)); [| done].
  intros item w2 Hitem Hw2.
  destruct (load_fixture_item_step db_name item w2) as [Hframe Hev]. split.
  - eapply frame_trans_same; [exact Hw2 |].
    eapply frame_mono; [| exact Hframe].
    intros key ->%list_elem_of_singleton. by eapply fixture_keys_elem.
  - destruct Hev as [-> | (doc_id & doc & -> & Hid & Hdoc)]; [done |].
    constructor; [| done]. intros d i doc' [= <- <- <-]. eauto 10.
Qed.

(** X7: a fixture record that carries no revision and whose id is not in
    the database is written once, as it is; the database then holds it
    under its id, with the revision the server assigned, and every other
    document is as before. *)
Theorem load_fixture_item_new (db_name : string) (item : Doc) (db : Database)
    (doc_id : string) (w : World) :
  dbs w !! db_name = Some db →
  item !! "_id" = Some (JStr doc_id) →
  db !! doc_id = None →
  item !! "_rev" = None →
  let o := load_fixture_item db_name item w in
  res o = Ok tt ∧
  events o = [EvDocPut db_name doc_id item] ∧
  lookup_doc (final o) db_name doc_id = Some (<["_rev" := new_rev None item]> item) ∧
  (∀ name other, (name, other) ≠ (db_name, doc_id) →
     lookup_doc (final o) name other = lookup_doc w name other).
Proof.
  intros Hdb Hid Hnew Hrev. cbn zeta.
  rewrite (load_fixture_item_run _ _ _ _ _ Hdb Hid), Hnew.
  rewrite (db_setitem_run _ _ _ _ _ Hdb), Hnew. simpl.
  destruct (decide (item !! "_rev" = None)); [| done]. simpl.
  split; [done |]. split; [done |]. split.
  - rewrite lookup_doc_set_dbs_eq. by rewrite (insert_id item "_id" (JStr doc_id)).
  - intros name other Hne. by apply lookup_doc_set_dbs_ne.
Qed.

(** X8: whatever its outcome, a run of [load_fixture] writes nothing but
    records of the fixture: every write is for the database and the id of
    a record of the fixture, and carries that record, up to the
    revision. *)
Theorem load_fixture_writes_fixture_only (fixture : list (string * list Doc))
    (w : World) (db_name doc_id : string) (doc : Doc) :
  (db_name, doc_id, doc) ∈ writes (events (load_fixture fixture w)) →
  ∃ items item,
    (db_name, items) ∈ fixture ∧ item ∈ items ∧
    item !! "_id" = Some (JStr doc_id) ∧
    delete "_rev" doc = delete "_rev" item.
Proof.
  intros Hin%elem_of_writes.
  destruct (load_fixture_inv fixture w) as [_ Hev].
  rewrite Forall_forall in Hev. by eapply Hev.
Qed.

(** X9: whatever its outcome, a run of [load_fixture] leaves the
    configuration store as it was, loses no database, and changes no
    document other than those the fixture names by database and id. *)
Theorem load_fixture_leaves_rest (fixture : list (string * list Doc)) (w : World) :
  let w' := final (load_fixture fixture w) in
  config w' = config w ∧
  (∀ name, is_Some (dbs w !! name) → is_Some (dbs w' !! name)) ∧
  (∀ name doc_id,
     (∀ items item, (name, items) ∈ fixture → item ∈ items →
                    item !! "_id" ≠ Some (JStr doc_id)) →
     lookup_doc w' name doc_id = lookup_doc w name doc_id).
Proof.
  destruct (load_fixture_inv fixture w) as [(Hc & Hd & Hl) _]. cbn zeta in *.
  split; [done |]. split; [done |].
  intros name doc_id Hnot. apply Hl. unfold fixture_keys.
  intros ([name' items] & Hentry & Hin)%list_elem_of_In%in_flat_map.
  simpl in Hin. apply in_map_iff in Hin as (item & [= -> Hid] & Hitem).
  eapply Hnot; [by apply list_elem_of_In | by apply list_elem_of_In | done].
Qed.


(** *** [update_module_types]: what a run writes and what it leaves alone *)

Lemma same_ids_refl db_name w : same_ids db_name w w.
Proof. by split. Qed.

Lemma same_ids_trans db_name w1 w2 w3 :
  same_ids db_name w1 w2 → same_ids db_name w2 w3 → same_ids db_name w1 w3.
Proof.
  intros (Hc & Hd & Hi) (Hc' & Hd' & Hi'). split; [congruence |]. split.
  - intros name Hne. by rewrite Hd', Hd.
  - intros doc_id. by rewrite Hi', Hi.
Qed.

Lemma same_ids_eq db_name w w' :
  config w' = config w → dbs w' = dbs w → same_ids db_name w w'.
Proof.
  intros Hc Hd. split; [done |]. unfold lookup_doc. rewrite Hd. by split.
Qed.

(** Overwriting a stored document keeps the ids. *)
Lemma same_ids_overwrite db_name db doc_id doc w :
  dbs w !! db_name = Some db →
  is_Some (db !! doc_id) →
  same_ids db_name w (set_dbs (<[db_name := <[doc_id := doc]> db]> (dbs w)) w).
Proof.
  intros Hdb Hdoc. split; [done |]. split.
  - intros name Hne. simpl. by rewrite lookup_insert_ne.
  - intros other. unfold lookup_doc. simpl. rewrite lookup_insert_eq, Hdb. simpl.
    destruct (decide (doc_id = other)) as [<- | Hne].
    + rewrite lookup_insert_eq. split; eauto.
    + by rewrite lookup_insert_ne.
Qed.

(** One round of the loop of [update_module_types], whatever the world. *)
Lemma update_module_type_step temp_folder _id w :
  let o := update_module_type temp_folder _id w in
  same_ids FIRMWARE_MODULE_TYPE w (final o) ∧
  Forall (λ e, ∀ db_name doc_id doc, e = EvDocPut db_name doc_id doc →
            db_name = FIRMWARE_MODULE_TYPE ∧ doc_id = _id ∧
            String.prefix "_" doc_id = false ∧
            is_Some (lookup_doc w FIRMWARE_MODULE_TYPE doc_id))
    (events o).
Proof.
  cbn zeta.
  destruct (String.prefix "_" _id) eqn:Hpre.
  { unfold update_module_type. rewrite Hpre. split; [apply same_ids_refl | done]. }
  destruct (dbs w !! FIRMWARE_MODULE_TYPE) as [db |] eqn:Hdb; cycle 1.
  { unfold update_module_type, db_getitem, db_lookup, server_getitem.
    rewrite Hpre. run. rewrite Hdb. simpl. split; [apply same_ids_refl | done]. }
  destruct (db !! _id) as [obj |] eqn:Hobj; cycle 1.
  { unfold update_module_type, db_getitem, db_lookup, server_getitem.
    rewrite Hpre. run. rewrite Hdb. simpl. rewrite Hobj. simpl.
    split; [apply same_ids_refl | done]. }
  split; cycle 1.
  { apply Forall_forall. intros e He d i doc ->. apply elem_of_writes in He.
    destruct (update_module_type_writes _ _ _ _ _ Hdb Hobj _ He)
      as (doc' & [= -> -> <-] & _).
    split; [done |]. split; [done |]. split; [done |].
    unfold lookup_doc. rewrite Hdb. simpl. eauto. }
  rewrite (update_module_type_run _ _ _ _ _ Hdb Hobj Hpre).
  destruct (FirmwareModuleType obj) as [model | e] eqn:Hmodel;
    [| apply same_ids_refl].
  rewrite (bind_pure _ _ _ model) by done.
  destruct (update_record_frame model temp_folder w) as (_ & Hdbs & Hconfig).
  cbn zeta in Hdbs, Hconfig.
  pose proof (same_ids_eq FIRMWARE_MODULE_TYPE _ _ Hconfig Hdbs) as Hsame.
  destruct (res (update_record model temp_folder w)) as [new_obj | e] eqn:Hret;
    [| by rewrite (bind_raise _ _ _ e Hret)].
  rewrite (bind_ok _ _ _ new_obj Hret). cbn [final].
  set (w1 := final (update_record model temp_folder w)) in *.
  destruct (obj !! "_rev") as [rev |] eqn:Hrev; cycle 1.
  { rewrite (bind_raise _ _ _ (KeyError "_rev"))
      by (unfold getitem; by rewrite Hrev).
    unfold getitem. by rewrite Hrev. }
  rewrite (bind_pure _ _ _ rev) by (unfold getitem; by rewrite Hrev).
  destruct (decide _); [| done].
  assert (Hdb1 : dbs w1 !! FIRMWARE_MODULE_TYPE = Some db) by by rewrite Hdbs.
  rewrite (db_setitem_run _ _ _ _ _ Hdb1).
  destruct (decide _); [| done]. cbn [final].
  eapply same_ids_trans; [exact Hsame |].
  apply same_ids_overwrite; [done |]. rewrite Hobj. eauto.
Qed.

(** The run of [update_module_types], whatever its outcome. *)
Lemma update_module_types_inv w :
  let o := update_module_types w in
  same_ids FIRMWARE_MODULE_TYPE w (final o) ∧
  Forall (λ e, ∀ db_name doc_id doc, e = EvDocPut db_name doc_id doc →
            db_name = FIRMWARE_MODULE_TYPE ∧
            String.prefix "_" doc_id = false ∧
            is_Some (lookup_doc w FIRMWARE_MODULE_TYPE doc_id))
    (events o).
Proof.
  cbn zeta.
  destruct (dbs w !! FIRMWARE_MODULE_TYPE) as [db |] eqn:Hdb; cycle 1.
  { unfold update_module_types.
    rewrite (bind_raise _ _ _ ResourceNotFound)
      by by rewrite (server_getitem_None _ _ Hdb).
    rewrite (server_getitem_None _ _ Hdb). split; [apply same_ids_refl | done]. }
  rewrite (update_module_types_run _ _ Hdb). cbn zeta.
  set (temp_folder := mkdtemp_name (dirs (fs w))).
  set (w1 := set_fs _ w).
  set (ids := merge_sort _ _).
  destruct (for_each_inv
              (same_ids FIRMWARE_MODULE_TYPE w)
              (λ e, ∀ db_name doc_id doc, e = EvDocPut db_name doc_id doc →
                 db_name = FIRMWARE_MODULE_TYPE ∧
                 String.prefix "_" doc_id = false ∧
                 is_Some (lookup_doc w FIRMWARE_MODULE_TYPE doc_id))
              (update_module_type temp_folder) ids) with (w := w1)
    as [Hsame Hev].
  { intros _id w' _ Hw'.
    destruct (update_module_type_step temp_folder _id w') as [Hstep Hev].
    split; [by eapply same_ids_trans |].
    eapply Forall_impl; [exact Hev |].
    intros e He d i doc ->. destruct (He d i doc eq_refl) as (-> & -> & Hpre & Hin).
    split; [done |]. split; [done |]. by apply Hw'. }
  { by apply same_ids_eq. }
  destruct (res (for_each _ _ _)) as [[] | e].
  - split.
    + eapply same_ids_trans; [exact Hsame |]. by apply same_ids_eq.
    + constructor; [done |]. apply Forall_app. split; [done |]. by constructor.
  - split; [done |]. by constructor.
Qed.

(** X10: whatever its outcome, a run of [update_module_types] writes only
    documents of the firmware module type database, under ids that were
    in the database when the run began, and never under an id that begins
    with an underscore. *)
Theorem update_module_types_writes_known (w : World) (db_name doc_id : string)
    (doc : Doc) :
  (db_name, doc_id, doc) ∈ writes (events (update_module_types w)) →
  db_name = FIRMWARE_MODULE_TYPE ∧
  String.prefix "_" doc_id = false ∧
  is_Some (lookup_doc w FIRMWARE_MODULE_TYPE doc_id).
Proof.
  intros Hin%elem_of_writes.
  destruct (update_module_types_inv w) as [_ Hev].
  rewrite Forall_forall in Hev. by eapply Hev.
Qed.

(** X11: whatever its outcome, a run of [update_module_types] leaves the
    configuration store and every other database as they were, and
    neither adds a document to the firmware module type database nor
    removes one from it. *)
Theorem update_module_types_keeps_ids (w : World) :
  let w' := final (update_module_types w) in
  config w' = config w ∧
  (∀ name, name ≠ FIRMWARE_MODULE_TYPE → dbs w' !! name = dbs w !! name) ∧
  (∀ doc_id, is_Some (lookup_doc w' FIRMWARE_MODULE_TYPE doc_id)
             ↔ is_Some (lookup_doc w FIRMWARE_MODULE_TYPE doc_id)).
Proof. apply update_module_types_inv. Qed.

(** X12: when a run of [update_module_types] completes, nothing is left
    of the scratch directory: no file and no directory at or below the
    path that [mkdtemp] returned. *)
Theorem update_module_types_scratch_empty (w : World) (path : string) :
  res (update_module_types w) = Ok tt →
  below (mkdtemp_name (dirs (fs w))) path = true →
  files (fs (final (update_module_types w))) !! path = None ∧
  path ∉ dirs (fs (final (update_module_types w))).
Proof.
  destruct (dbs w !! FIRMWARE_MODULE_TYPE) as [db |] eqn:Hdb; cycle 1.
  { unfold update_module_types.
    by rewrite (bind_raise _ _ _ ResourceNotFound)
      by by rewrite (server_getitem_None _ _ Hdb). }
  rewrite (update_module_types_run _ _ Hdb). cbn zeta.
  destruct (res (for_each _ _ _)) as [[] | e]; [| done].
  intros _ Hbelow. simpl. split.
  - apply map_lookup_filter_None. right. intros x _. simpl. rewrite Hbelow.
    intros Hnot. by apply Hnot.
  - rewrite elem_of_filter. intros [Hnot _]. rewrite Hbelow in Hnot.
    by apply Hnot.
Qed.


(** *** [update_record]: what it asks of the outside *)

(** X13: all that [update_record] ever does to the outside is, for a
    record whose repository is of type ["git"] with a URL, one clone of the
    branch the record names, of [master] when it names none, into the
    directory derived from the URL below [temp_folder], followed by the
    opening of [module.json] in that directory.  In every other case it
    does nothing. *)
Theorem update_record_events (obj : Doc) (temp_folder : string) (w : World) :
  events (update_record obj temp_folder w) = [] ∨
  ∃ repo url branch,
    obj !! "repository" = Some (JObj repo) ∧
    repo !! "type" = Some (JStr "git") ∧
    repo !! "url" = Some (JStr url) ∧
    default (JStr "master") (repo !! "branch") = JStr branch ∧
    events (update_record obj temp_folder w) =
      [EvClone branch url (make_dir_name_from_url url) temp_folder;
       EvOpen (path_join temp_folder
                 (path_join (make_dir_name_from_url url) "module.json"))].
Proof.
  destruct (obj !! "repository") as [repo |] eqn:Hrepo; cycle 1.
  { left. unfold update_record. by rewrite Hrepo. }
  destruct repo as [| b | n | s | l | repo];
    try (left; unfold update_record, subscript; rewrite Hrepo; by run).
  destruct (repo !! "type") as [type |] eqn:Htype; cycle 1.
  { left. unfold update_record, subscript, getitem. rewrite Hrepo, Htype. by run. }
  destruct (decide (type = JStr "git")) as [-> | Htype_ne]; cycle 1.
  { left. unfold update_record, subscript, getitem. rewrite Hrepo, Htype. run.
    by destruct (decide (type ≠ JStr "git")). }
  destruct (repo !! "url") as [url |] eqn:Hurl; cycle 1.
  { left. unfold update_record, subscript, getitem. rewrite Hrepo, Htype. run.
    destruct (decide (JStr "git" ≠ JStr "git")); [done |]. by rewrite Hurl. }
  destruct url as [| b | n | url | l | m];
    try (left; unfold update_record, subscript, getitem, get_default, as_str;
         rewrite Hrepo, Htype; run;
         destruct (decide (JStr "git" ≠ JStr "git")); [done |];
         rewrite Hurl; by run).
  destruct (default (JStr "master") (repo !! "branch"))
    as [| b | n | branch | l | m] eqn:Hbranch;
    try (left; unfold update_record, subscript, getitem, get_default, as_str;
         rewrite Hrepo, Htype; run;
         destruct (decide (JStr "git" ≠ JStr "git")); [done |];
         rewrite Hurl; simpl; rewrite Hbranch; by run).
  right. exists repo, url, branch. repeat (split; [done |]).
  by rewrite (update_record_git _ _ _ _ temp_folder w Hrepo Htype Hurl Hbranch).
Qed.

(** *** The commands that need a local server *)

(** X14: without a local server in the configuration store (unset or
    empty), [deinit], [show], [clear] and [load_fixture] all stop at the
    first check with the same [ClickException]: nothing is asked of the
    user, nothing is written or deleted, and the world is as it was. *)
Theorem no_local_server_refused (fixture : list (string * list Doc)) (w : World) :
  truthy (local_server_url (config w)) = false →
  ∃ message,
    let refused := {| res := Raise (ClickException message); final := w;
                      events := [] |} in
    deinit w = refused ∧ show w = refused ∧ clear w = refused ∧
    load_fixture fixture w = refused.
Proof.
  intros Hlocal. exists "No local server selected". cbn zeta.
  assert (Hcheck : res (check_for_local_server w)
                   = Raise (ClickException "No local server selected"))
    by by rewrite check_for_local_server_run, Hlocal.
  unfold deinit, show, clear, load_fixture.
  rewrite !(bind_raise _ _ _ _ Hcheck), check_for_local_server_run. by simpl.
Qed.

Lemma init_guard_not_click db_url api_url w message :
  truthy (local_server_url (config w)) = false ∨
    local_server_url (config w) = Some db_url →
  res (init db_url api_url w) ≠ Raise (ClickException message).
Proof.
  intros Hguard.
  destruct (res (for_each (apply_config_item db_url)
                   (config_items (generate_config api_url)) w))
    as [[] | e] eqn:Hloop.
  - by rewrite (init_run_ok _ _ _ Hguard Hloop).
  - rewrite (init_run_raise _ _ _ _ Hguard Hloop). cbn [res].
    intros [= ->]. by apply config_loop_raise in Hloop.
Qed.

(** X15: with a local server selected, [deinit] completes and only
    forgets it: the cloud settings, the server and the file system are
    untouched.  After it, [init] is not refused, whatever the URL. *)
Theorem deinit_then_init (w : World) (db_url : string) (api_url : option string) :
  truthy (local_server_url (config w)) = true →
  deinit w =
    {| res := Ok tt;
       final := set_config
         {| local_server_url := None;
            cloud_server_url := cloud_server_url (config w);
            cloud_server_farm_name := cloud_server_farm_name (config w) |} w;
       events := [] |} ∧
  ∀ message,
    res (init db_url api_url (final (deinit w))) ≠ Raise (ClickException message).
Proof.
  intros Hlocal.
  assert (Hrun : deinit w =
    {| res := Ok tt;
       final := set_config
         {| local_server_url := None;
            cloud_server_url := cloud_server_url (config w);
            cloud_server_farm_name := cloud_server_farm_name (config w) |} w;
       events := [] |}).
  { unfold deinit.
    by rewrite (bind_pure _ _ _ tt) by by rewrite check_for_local_server_run, Hlocal. }
  split; [done |]. intros message. rewrite Hrun. cbn [final].
  apply init_guard_not_click. by left.
Qed.

(** *** [clear] *)

Lemma server_delitem_loop names w :
  let o := for_each server_delitem names w in
  events o = [] ∧ config (final o) = config w ∧ fs (final o) = fs w ∧
  (∀ name, dbs w !! name = None → dbs (final o) !! name = None) ∧
  (∀ name, name ∉ names → dbs (final o) !! name = dbs w !! name) ∧
  (res o = Ok tt → ∀ name, name ∈ names → dbs (final o) !! name = None).
Proof.
  revert w. induction names as [| name names IH]; intros w; cbn zeta.
  - repeat split; auto. by intros _ name ?%elem_of_nil.
  - rewrite for_each_cons.
    destruct (dbs w !! name) as [db |] eqn:Hdb; cycle 1.
    { assert (Hstep : server_delitem name w =
        {| res := Raise ResourceNotFound; final := w; events := [] |}).
      { unfold server_delitem. run. by rewrite Hdb. }
      rewrite (bind_raise _ _ _ ResourceNotFound) by by rewrite Hstep.
      rewrite Hstep. by repeat split. }
    assert (Hstep : server_delitem name w =
      {| res := Ok tt; final := set_dbs (delete name (dbs w)) w; events := [] |}).
    { unfold server_delitem. run. by rewrite Hdb. }
    rewrite (bind_ok _ _ _ tt) by by rewrite Hstep.
    rewrite Hstep. cbn [res final events].
    destruct (IH (set_dbs (delete name (dbs w)) w))
      as (Hev & Hc & Hf & Hnone & Hother & Hgone). cbn zeta in *.
    split; [by rewrite Hev |]. split; [done |]. split; [done |]. split; [| split].
    + intros n Hn. apply Hnone. simpl. apply lookup_delete_None. by right.
    + intros n Hn. apply not_elem_of_cons in Hn as [Hne Hn].
      rewrite Hother by done. simpl. by rewrite lookup_delete_ne.
    + intros Hres n [-> | Hn]%elem_of_cons; [| by apply Hgone].
      apply Hnone. simpl. apply lookup_delete_eq.
Qed.

(** X16: when a run of [clear] completes, no database of [all_dbs] is
    left on the server; the databases that are not in [all_dbs], the
    configuration store and the file system are as they were. *)
Theorem clear_completed (w : World) :
  res (clear w) = Ok tt →
  let w' := final (clear w) in
  (∀ name, name ∈ all_dbs → dbs w' !! name = None) ∧
  (∀ name, name ∉ all_dbs → dbs w' !! name = dbs w !! name) ∧
  config w' = config w ∧ fs w' = fs w.
Proof.
  unfold clear. intros Hres.
  apply bind_inv_ok in Hres as ([] & Hcheck & Hres).
  rewrite (bind_ok _ _ _ tt Hcheck). cbn [final].
  rewrite check_for_local_server_run in Hres |- *. cbn [final] in Hres |- *.
  apply bind_inv_ok in Hres as ([] & Hconfirm & Hres).
  rewrite (bind_ok _ _ _ tt Hconfirm). cbn [final].
  unfold lift in Hres |- *. cbn [final] in Hres |- *.
  destruct (server_delitem_loop all_dbs w) as (_ & Hc & Hf & _ & Hother & Hgone).
  cbn zeta in *. auto.
Qed.

(** X17: when the user does not agree to the prompt of [clear], the
    command ends with the error of the prompt and no database is deleted:
    the world is as it was. *)
Theorem clear_declined (w : World) (e : exn) :
  truthy (local_server_url (config w)) = true →
  confirm "Are you sure you want to do this? It will delete all of your data"
    = Raise e →
  clear w = {| res := Raise e; final := w; events := [] |}.
Proof.
  intros Hlocal Hconfirm. unfold clear.
  rewrite (bind_pure _ _ _ tt) by by rewrite check_for_local_server_run, Hlocal.
  rewrite (bind_raise _ _ _ e) by (unfold lift; by rewrite Hconfirm).
  unfold lift. by rewrite Hconfirm.
Qed.

(** *** [init], then [show] *)

(** X18: after a run of [init] that completes, for a [db_url] that is not
    empty, [show] completes and prints that URL. *)
Theorem init_then_show (db_url : string) (api_url : option string) (w : World) :
  res (init db_url api_url w) = Ok tt →
  db_url ≠ EmptyString →
  let w' := final (init db_url api_url w) in
  show w' =
    {| res := Ok tt; final := w';
       events := [EvEcho ("Using local server at " +:+ q +:+ db_url +:+ q)] |}.
Proof.
  intros Hres Hne. cbn zeta. destruct (init_ok_inv _ _ _ Hres) as [Hguard Hloop].
  rewrite (init_run_ok _ _ _ Hguard Hloop). cbn zeta. cbn [final].
  set (w' := set_config _ _).
  assert (Hlocal : local_server_url (config w') = Some db_url) by done.
  unfold show.
  rewrite (bind_pure _ _ _ tt);
    [| rewrite check_for_local_server_run, Hlocal; simpl;
       by rewrite (bool_decide_eq_true_2 _ Hne)].
  rewrite (bind_pure _ _ _ w') by done. by rewrite Hlocal.
Qed.


(** *** [init]: a run that fails *)


(** *** [update_module_types]: nothing to do *)




(** *** [load_fixture]: a record that has changed *)


(** *** [init]: the value the server returns *)

Lemma rstrip_all_space (ws : string) : all_space ws = true → rstrip ws = EmptyString.
Proof.
  induction ws as [| c ws IH]; simpl; [done |].
  intros [Hc Hws]%andb_true_iff. by rewrite (IH Hws), Hc.
Qed.

Lemma rstrip_app_space (s ws : string) :
  all_space ws = true → rstrip (s +:+ ws) = rstrip s.
Proof.
  intros Hws. induction s as [| c s IH]; simpl.
  - by apply rstrip_all_space.
  - by rewrite IH.
Qed.

Lemma lstrip_app_space (ws s : string) :
  all_space ws = true → lstrip (ws +:+ s) = lstrip s.
Proof.
  induction ws as [| c ws IH]; simpl; [done |].
  intros [Hc Hws]%andb_true_iff. rewrite Hc. by apply IH.
Qed.

Lemma append_assoc (s1 s2 s3 : string) :
  (s1 +:+ s2) +:+ s3 = s1 +:+ s2 +:+ s3.
Proof.
  induction s1 as [| c s1 IH]; [done |].
  exact (f_equal (String c) IH).
Qed.

Lemma rstrip_app_nonempty (s1 s2 : string) :
  rstrip s2 ≠ EmptyString → rstrip (s1 +:+ s2) = s1 +:+ rstrip s2.
Proof.
  intros Hne. induction s1 as [| c s1 IH]; simpl; [done |].
  rewrite IH. destruct s1; simpl; [by destruct (rstrip s2) | done].
Qed.

(** X22: whitespace around the value that the server returns does not
    count: when the body of the response is the desired value with
    whitespace before or after it (the server ends it with a newline),
    the parameter is read and not written. *)
Theorem config_value_whitespace_ignored (db_url section param value : string)
    (before after : string) (w : World) :
  all_space before = true →
  all_space after = true →
  couch_config w !! config_url db_url section param
    = Some (before +:+ desired_val value +:+ after) →
  apply_config_item db_url (section, param, value) w =
    {| res := Ok tt; final := w;
       events := [EvHttpGet (config_url db_url section param)] |}.
Proof.
  intros Hbefore Hafter Hbody. apply apply_config_item_same.
  rewrite Hbody. simpl. f_equal. unfold strip.
  rewrite <- append_assoc, (rstrip_app_space _ _ Hafter).
  pose proof (strip_desired_val value) as Hstrip. unfold strip in Hstrip.
  assert (Hr : rstrip (desired_val value) = desired_val value).
  { unfold desired_val, q.
    change (String dquote EmptyString +:+ escape_quotes value
              +:+ String dquote EmptyString)
      with (String dquote (escape_quotes value) +:+ String dquote EmptyString).
    by apply rstrip_nonspace_end. }
  rewrite rstrip_app_nonempty by by rewrite Hr.
  rewrite Hr, (lstrip_app_space _ _ Hbefore). done.
Qed.

(** *** [init]: the order of a run *)

(** X23: a run of [init] that completes does things in this order: the
    requests of the configuration loop, then one request for each
    database of [all_dbs] in order, then the push of the design documents,
    and last what the configuration store says about replication. *)
Theorem init_trace (db_url : string) (api_url : option string) (w : World) :
  res (init db_url api_url w) = Ok tt →
  ∃ config_events,
    Forall config_event config_events ∧
    events (init db_url api_url w) =
      config_events ++ map EvGetOrCreate all_dbs ++
      [EvEcho "Pushing design documents"; EvPushDesign design_path] ++
      replication_events (config w) db_url.
Proof.
  intros Hres. destruct (init_ok_inv _ _ _ Hres) as [Hguard Hloop].
  rewrite (init_run_ok _ _ _ Hguard Hloop). cbn zeta. cbn [events].
  destruct (config_loop_keeps db_url (config_items (generate_config api_url)) w)
    as ((Hc & _ & _) & Hev).
  destruct (get_or_create_loop all_dbs
              (final (for_each (apply_config_item db_url)
                        (config_items (generate_config api_url)) w)))
    as (_ & _ & (Hc' & _ & _) & _).
  cbn zeta in *. rewrite Hc', Hc. eauto.
Qed.


End Commands.

(** ** The properties on the concrete world *)

Lemma update_record_passthrough_witness :
  update_record Sim.make_dir_name_from_url (Sim.git_clone ∅)
      Sim.module_p1 Sim.scratch (Sim.scratch_world Sim.plain_store)
    = {| res := Ok Sim.module_p1; final := Sim.scratch_world Sim.plain_store;
         events := [] |} ∧
  update_record Sim.make_dir_name_from_url (Sim.git_clone ∅)
      Sim.module_svn Sim.scratch (Sim.scratch_world Sim.plain_store)
    = {| res := Ok Sim.module_svn; final := Sim.scratch_world Sim.plain_store;
         events := [] |}.
Proof.
  split;
    apply (update_record_passthrough Sim.make_dir_name_from_url (Sim.git_clone ∅)).
  - left. vm_compute. reflexivity.
  - right. exists {[ "type" := JStr "svn"; "url" := JStr "svn://x/y" ]}, (JStr "svn").
    split; [vm_compute; reflexivity |]. split; [vm_compute; reflexivity |].
    discriminate.
Defined.

Lemma update_record_key_error_witness :
  update_record Sim.make_dir_name_from_url (Sim.git_clone ∅)
      Sim.module_untyped Sim.scratch (Sim.scratch_world ∅)
    = {| res := Raise (KeyError "type"); final := Sim.scratch_world ∅; events := [] |} ∧
  update_record Sim.make_dir_name_from_url (Sim.git_clone ∅)
      Sim.module_no_url Sim.scratch (Sim.scratch_world ∅)
    = {| res := Raise (KeyError "url"); final := Sim.scratch_world ∅; events := [] |}.
Proof.
  split.
  - apply (update_record_key_error Sim.make_dir_name_from_url (Sim.git_clone ∅)
             Sim.module_untyped {[ "url" := JStr Sim.git_url ]}).
    + vm_compute. reflexivity.
    + vm_compute. reflexivity.
  - apply (update_record_key_error Sim.make_dir_name_from_url (Sim.git_clone ∅)
             Sim.module_no_url {[ "type" := JStr "git" ]}).
    + vm_compute. reflexivity.
    + vm_compute. reflexivity.
    + vm_compute. reflexivity.
Defined.

Lemma init_conflict_witness :
  init Sim.urljoin Sim.generate_config Sim.status_ok Sim.all_dbs Sim.design_path
      "http://10.0.0.7:5984" None (Sim.world Sim.local_config ∅)
    = {| res := Raise (ClickException
           ("Local database " +:+ q +:+ Sim.db_url +:+ q +:+
            " already initialized. Switching local databases is not currently supported"));
         final := Sim.world Sim.local_config ∅; events := [] |}.
Proof.
  apply (init_conflict Sim.urljoin Sim.generate_config Sim.status_ok Sim.all_dbs
           Sim.design_path "http://10.0.0.7:5984" None (Sim.world Sim.local_config ∅)
           Sim.db_url).
  - reflexivity.
  - discriminate.
  - discriminate.
Defined.

(** C6: a parameter whose value differs and whose write is answered with
    status 500.  The write is sent, then [NameError] is raised: no pause
    follows the write. *)
Lemma apply_config_item_no_pause :
  apply_config_item Sim.urljoin Sim.status_error Sim.db_url
      ("httpd", "bind_address", "0.0.0.0") (Sim.world Sim.no_config ∅)
    = {| res := Raise (NameError "res"); final := Sim.world Sim.no_config ∅;
         events :=
           [EvHttpGet "http://localhost:5984/_config/httpd/bind_address";
            EvHttpPut "http://localhost:5984/_config/httpd/bind_address"
                      (q +:+ "0.0.0.0" +:+ q)] |}.
Proof. vm_compute. reflexivity. Qed.

(** C8: [init] with two parameters to set, the write of the first answered
    with status 500.  [init] ends there with [NameError]: no
    [ClickException] carries the failure to the user, and the second
    parameter, the databases and the configuration store are not touched. *)
Lemma init_stops_at_failed_write :
  init Sim.urljoin Sim.generate_config Sim.status_error Sim.all_dbs Sim.design_path
      Sim.db_url None (Sim.world Sim.no_config ∅)
    = {| res := Raise (NameError "res"); final := Sim.world Sim.no_config ∅;
         events :=
           [EvHttpGet "http://localhost:5984/_config/httpd/bind_address";
            EvHttpPut "http://localhost:5984/_config/httpd/bind_address"
                      (q +:+ "0.0.0.0" +:+ q)] |}.
Proof. vm_compute. reflexivity. Qed.

(** With status 200 the same run sets both parameters, each write followed
    by the pause, and goes on to create the databases. *)
Example init_completes :
  events (init Sim.urljoin Sim.generate_config Sim.status_ok Sim.all_dbs
            Sim.design_path Sim.db_url None (Sim.world Sim.no_config ∅))
    = [EvHttpGet "http://localhost:5984/_config/httpd/bind_address";
       EvHttpPut "http://localhost:5984/_config/httpd/bind_address"
                 (q +:+ "0.0.0.0" +:+ q);
       EvSleep 1;
       EvHttpGet "http://localhost:5984/_config/httpd/enable_cors";
       EvHttpPut "http://localhost:5984/_config/httpd/enable_cors"
                 (q +:+ "true" +:+ q);
       EvSleep 1;
       EvGetOrCreate "firmware_module_type";
       EvGetOrCreate "recipes";
       EvEcho "Pushing design documents";
       EvPushDesign "/openag/_design"].
Proof. vm_compute. reflexivity. Qed.

Lemma load_fixture_twice_witness :
  NoDup (fixture_keys Sim.widgets_fixture) ∧
  let w1 := final (load_fixture Sim.new_rev Sim.widgets_fixture Sim.widgets_world) in
  res (load_fixture Sim.new_rev Sim.widgets_fixture w1) = Ok tt ∧
  writes (events (load_fixture Sim.new_rev Sim.widgets_fixture w1)) = [] ∧
  final (load_fixture Sim.new_rev Sim.widgets_fixture w1) = w1.
Proof.
  assert (Hnd : NoDup (fixture_keys Sim.widgets_fixture)).
  { apply (bool_decide_unpack _). vm_compute. exact I. }
  split; [exact Hnd |].
  apply (load_fixture_twice Sim.new_rev Sim.widgets_fixture Sim.widgets_world Hnd).
  vm_compute. reflexivity.
Defined.

(** The first run on the example fixture writes the one record. *)
Example load_fixture_first_run :
  writes (events (load_fixture Sim.new_rev Sim.widgets_fixture Sim.widgets_world))
    = [("widgets", "a", Sim.widget_foo)] ∧
  lookup_doc (final (load_fixture Sim.new_rev Sim.widgets_fixture Sim.widgets_world))
      "widgets" "a"
    = Some (<["_rev" := JNum 1]> Sim.widget_foo).
Proof. split; vm_compute; reflexivity. Qed.

(** C3 as stated fails on a fixture set that lists the id [a] twice in one
    database: the first run completes, and the second run, on the store the
    first one left, writes both records again. *)
Lemma load_fixture_twice_duplicates :
  let o1 := load_fixture Sim.new_rev Sim.duplicate_fixture Sim.widgets_world in
  let o2 := load_fixture Sim.new_rev Sim.duplicate_fixture (final o1) in
  res o1 = Ok tt ∧
  writes (events o2) =
    [("widgets", "a", <["_rev" := JNum 2]> Sim.widget_foo);
     ("widgets", "a", <["_rev" := JNum 3]> Sim.widget_bar)] ∧
  writes (events o2) ≠ [].
Proof.
  assert (Hw : writes (events (load_fixture Sim.new_rev Sim.duplicate_fixture
             (final (load_fixture Sim.new_rev Sim.duplicate_fixture Sim.widgets_world))))
           = [("widgets", "a", <["_rev" := JNum 2]> Sim.widget_foo);
              ("widgets", "a", <["_rev" := JNum 3]> Sim.widget_bar)]).
  { vm_compute. reflexivity. }
  cbn zeta. split; [vm_compute; reflexivity |]. split; [exact Hw |].
  rewrite Hw. discriminate.
Qed.

Lemma unchanged_content_not_written_witness :
  writes (events (load_fixture_item Sim.new_rev Sim.FIRMWARE_MODULE_TYPE
                    Sim.fixture_p1 (Sim.scratch_world Sim.plain_store))) = [] ∧
  writes (events (update_module_type Sim.FIRMWARE_MODULE_TYPE Sim.new_rev
                    Sim.make_dir_name_from_url (Sim.git_clone ∅)
                    Sim.FirmwareModuleType Sim.scratch "p1"
                    (Sim.scratch_world Sim.plain_store))) = [].
Proof.
  assert (Hold : ({[ "p1" := Sim.module_p1 ]} : Database) !! "p1" = Some Sim.module_p1)
    by (vm_compute; reflexivity).
  destruct (unchanged_content_not_written Sim.FIRMWARE_MODULE_TYPE Sim.new_rev
              Sim.make_dir_name_from_url (Sim.git_clone ∅) Sim.FirmwareModuleType
              (Sim.scratch_world Sim.plain_store) {[ "p1" := Sim.module_p1 ]}
              "p1" Sim.module_p1 Hold) as [Hfixture Hsync].
  split.
  - apply (Hfixture Sim.FIRMWARE_MODULE_TYPE Sim.fixture_p1).
    + vm_compute. reflexivity.
    + vm_compute. reflexivity.
    + vm_compute. reflexivity.
  - apply (Hsync Sim.scratch) with (model := Sim.module_p1) (new_obj := Sim.module_p1).
    + vm_compute. reflexivity.
    + reflexivity.
    + vm_compute. reflexivity.
    + reflexivity.
Defined.

(** The example of the specification: the manifest adds a version. *)
Lemma update_record_overlay_witness :
  res (update_record Sim.make_dir_name_from_url
         (Sim.git_clone {[ Sim.git_url := FManifest Sim.manifest_version ]})
         Sim.module_m1 Sim.scratch (Sim.scratch_world Sim.git_store))
    = Ok (Sim.manifest_version ∪ Sim.module_m1) ∧
  (Sim.manifest_version ∪ Sim.module_m1) !! "_id" = Sim.module_m1 !! "_id" ∧
  (Sim.manifest_version ∪ Sim.module_m1) !! "_rev" = Sim.module_m1 !! "_rev" ∧
  writes (events (update_module_type Sim.FIRMWARE_MODULE_TYPE Sim.new_rev
            Sim.make_dir_name_from_url
            (Sim.git_clone {[ Sim.git_url := FManifest Sim.manifest_version ]})
            Sim.FirmwareModuleType Sim.scratch "m1" (Sim.scratch_world Sim.git_store)))
    = [(Sim.FIRMWARE_MODULE_TYPE, "m1",
        <["_rev" := JNum 1]> (Sim.manifest_version ∪ Sim.module_m1))].
Proof.
  destruct (update_record_overlay Sim.FIRMWARE_MODULE_TYPE Sim.new_rev
              Sim.make_dir_name_from_url
              (Sim.git_clone {[ Sim.git_url := FManifest Sim.manifest_version ]})
              Sim.FirmwareModuleType
              Sim.module_m1 {[ "type" := JStr "git"; "url" := JStr Sim.git_url ]}
              Sim.git_url "master" Sim.scratch (Sim.scratch_world Sim.git_store)
              Sim.manifest_version)
    as (Hres & _ & Hid & Hrev & Hbatch).
  - vm_compute. reflexivity.
  - vm_compute. reflexivity.
  - vm_compute. reflexivity.
  - vm_compute. reflexivity.
  - vm_compute. reflexivity.
  - split; [exact Hres |].
    split; [apply Hid; vm_compute; reflexivity |].
    split; [apply Hrev; vm_compute; reflexivity |].
    rewrite (Hbatch "m1" {[ "m1" := Sim.module_m1 ]} Sim.module_m1 (JNum 1)).
    + vm_compute. reflexivity.
    + vm_compute. reflexivity.
    + vm_compute. reflexivity.
    + reflexivity.
    + reflexivity.
    + vm_compute. reflexivity.
Defined.

(** C1 as stated fails on a manifest that names an [_id] and a [_rev]: the
    manifest is read, and the record returned carries the manifest's
    values of both fields, not those of the input record. *)
Lemma update_record_manifest_overrides :
  let o := update_record Sim.make_dir_name_from_url
             (Sim.git_clone {[ Sim.git_url := FManifest Sim.manifest_ids ]})
             Sim.module_m1 Sim.scratch (Sim.scratch_world Sim.git_store) in
  ∃ new_obj,
    res o = Ok new_obj ∧
    events o = [EvClone "master" Sim.git_url "y" Sim.scratch;
                EvOpen "/tmp/tmpA/y/module.json"] ∧
    new_obj !! "_id" = Some (JStr "other") ∧
    new_obj !! "_rev" = Some (JNum 7) ∧
    new_obj !! "_id" ≠ Sim.module_m1 !! "_id" ∧
    new_obj !! "_rev" ≠ Sim.module_m1 !! "_rev".
Proof.
  exists (Sim.manifest_ids ∪ Sim.module_m1).
  repeat split; try (vm_compute; reflexivity); vm_compute; discriminate.
Qed.

Lemma update_record_clone_failed_witness :
  let config_path := "/tmp/tmpA/y/module.json" in
  update_record Sim.make_dir_name_from_url (Sim.git_clone ∅)
      Sim.module_m1 Sim.scratch (Sim.scratch_world Sim.git_store)
    = {| res := Raise (IOError config_path);
         final := Sim.scratch_world Sim.git_store;
         events := [EvClone "master" Sim.git_url "y" Sim.scratch;
                    EvOpen config_path] |} ∧
  let o := for_each (update_module_type Sim.FIRMWARE_MODULE_TYPE Sim.new_rev
                       Sim.make_dir_name_from_url (Sim.git_clone ∅)
                       Sim.FirmwareModuleType Sim.scratch)
             ["m1"] (Sim.scratch_world Sim.git_store) in
  res o = Raise (IOError config_path) ∧
  writes (events o) = [] ∧
  dbs (final o) = Sim.git_store.
Proof.
  destruct (update_record_clone_failed Sim.FIRMWARE_MODULE_TYPE Sim.new_rev
              Sim.make_dir_name_from_url (Sim.git_clone ∅) Sim.FirmwareModuleType
              Sim.module_m1 {[ "type" := JStr "git"; "url" := JStr Sim.git_url ]}
              Sim.git_url "master" Sim.scratch (Sim.scratch_world Sim.git_store))
    as [Hrun Hbatch].
  - vm_compute. reflexivity.
  - vm_compute. reflexivity.
  - vm_compute. reflexivity.
  - vm_compute. reflexivity.
  - vm_compute. discriminate.
  - vm_compute. reflexivity.
  - cbn zeta. split.
    + rewrite Hrun. vm_compute. reflexivity.
    + apply (Hbatch "m1" [] {[ "m1" := Sim.module_m1 ]} Sim.module_m1).
      * vm_compute. reflexivity.
      * vm_compute. reflexivity.
      * reflexivity.
      * reflexivity.
Defined.

(** C7 as stated fails on a clone that exits with status 128 and leaves
    nothing on disk: [update_record] does not return the record, it raises
    [IOError] from the [open] of the manifest. *)
Lemma update_record_clone_failure_raises :
  let w := Sim.scratch_world Sim.git_store in
  let o := update_record Sim.make_dir_name_from_url (Sim.git_clone ∅)
             Sim.module_m1 Sim.scratch w in
  (Sim.git_clone ∅ "master" Sim.git_url "y" Sim.scratch (fs w)).1 = 128 ∧
  res o = Raise (IOError "/tmp/tmpA/y/module.json") ∧
  res o ≠ Ok Sim.module_m1.
Proof.
  cbn zeta. split; [vm_compute; reflexivity |].
  assert (Hres : res (update_record Sim.make_dir_name_from_url (Sim.git_clone ∅)
             Sim.module_m1 Sim.scratch (Sim.scratch_world Sim.git_store))
           = Raise (IOError "/tmp/tmpA/y/module.json")) by (vm_compute; reflexivity).
  split; [exact Hres |]. rewrite Hres. discriminate.
Qed.

(** A clone can also fail and leave a manifest to read: two records name
    the same repository, the clone for the second one finds the directory
    of the first and exits with status 128, and the second record is merged
    with the manifest the first clone fetched, and written. *)
Example update_module_types_stale_manifest :
  let remote : gmap string file :=
    {[ Sim.git_url := FManifest Sim.manifest_version ]} in
  let o := update_module_types Sim.FIRMWARE_MODULE_TYPE Sim.new_rev
             Sim.make_dir_name_from_url (Sim.git_clone remote)
             Sim.FirmwareModuleType Sim.mkdtemp_name
             (Sim.world Sim.local_config Sim.two_store) in
  (Sim.git_clone remote "dev" Sim.git_url "y" Sim.scratch
     {| files := {[ "/tmp/tmpA/y/module.json" := FManifest Sim.manifest_version ]};
        dirs := {[ "/tmp/tmpA"; "/tmp/tmpA/y" ]} |}).1 = 128 ∧
  res o = Ok tt ∧
  events o =
    [EvMkdtemp Sim.scratch;
     EvClone "master" Sim.git_url "y" Sim.scratch;
     EvOpen "/tmp/tmpA/y/module.json";
     EvDocPut Sim.FIRMWARE_MODULE_TYPE "m1" (Sim.manifest_version ∪ Sim.module_m1);
     EvClone "dev" Sim.git_url "y" Sim.scratch;
     EvOpen "/tmp/tmpA/y/module.json";
     EvDocPut Sim.FIRMWARE_MODULE_TYPE "m2" (Sim.manifest_version ∪ Sim.module_m2);
     EvRmtree Sim.scratch].
Proof. cbn zeta. repeat split; vm_compute; reflexivity. Qed.

Lemma update_module_types_cleanup_witness :
  let o := update_module_types Sim.FIRMWARE_MODULE_TYPE Sim.new_rev
             Sim.make_dir_name_from_url
             (Sim.git_clone {[ Sim.git_url := FManifest Sim.manifest_version ]})
             Sim.FirmwareModuleType Sim.mkdtemp_name
             (Sim.world Sim.local_config Sim.git_store) in
  res o = Ok tt ∧
  (Sim.scratch ∉ dirs (fs (final o))) ∧
  last (events o) = Some (EvRmtree Sim.scratch).
Proof.
  assert (Hres : res (update_module_types Sim.FIRMWARE_MODULE_TYPE Sim.new_rev
             Sim.make_dir_name_from_url
             (Sim.git_clone {[ Sim.git_url := FManifest Sim.manifest_version ]})
             Sim.FirmwareModuleType Sim.mkdtemp_name
             (Sim.world Sim.local_config Sim.git_store)) = Ok tt)
    by (vm_compute; reflexivity).
  cbn zeta. split; [exact Hres |].
  exact (update_module_types_cleanup Sim.FIRMWARE_MODULE_TYPE Sim.new_rev
           Sim.make_dir_name_from_url
           (Sim.git_clone {[ Sim.git_url := FManifest Sim.manifest_version ]})
           Sim.FirmwareModuleType Sim.mkdtemp_name
           (Sim.world Sim.local_config Sim.git_store) Hres).
Defined.

(** C4 as stated fails on a batch that ends early: the clone of the one
    record fails, [update_record] raises, the loop and the command end
    with that error, and the scratch directory is still there. *)
Lemma update_module_types_keeps_scratch :
  let o := update_module_types Sim.FIRMWARE_MODULE_TYPE Sim.new_rev
             Sim.make_dir_name_from_url (Sim.git_clone ∅)
             Sim.FirmwareModuleType Sim.mkdtemp_name
             (Sim.world Sim.local_config Sim.git_store) in
  res o = Raise (IOError "/tmp/tmpA/y/module.json") ∧
  events o = [EvMkdtemp Sim.scratch;
              EvClone "master" Sim.git_url "y" Sim.scratch;
              EvOpen "/tmp/tmpA/y/module.json"] ∧
  Sim.scratch ∈ dirs (fs (final o)).
Proof.
  cbn zeta. split; [vm_compute; reflexivity |]. split; [vm_compute; reflexivity |].
  apply (bool_decide_unpack _). vm_compute. exact I.
Qed.

(** ** More properties on the concrete world *)


Lemma init_configured_reads_only_witness :
  events (init Sim.urljoin Sim.generate_config Sim.status_error Sim.all_dbs
            Sim.design_path Sim.db_url None Sim.configured_world)
    = [EvHttpGet "http://localhost:5984/_config/httpd/bind_address";
       EvHttpGet "http://localhost:5984/_config/httpd/enable_cors";
       EvGetOrCreate "firmware_module_type";
       EvGetOrCreate "recipes";
       EvEcho "Pushing design documents";
       EvPushDesign "/openag/_design"].
Proof.
  destruct (init_configured_reads_only Sim.urljoin Sim.generate_config
              Sim.status_error Sim.all_dbs Sim.design_path Sim.db_url None
              Sim.configured_world) as (_ & Hev & _).
  - left. reflexivity.
  - repeat constructor; vm_compute; reflexivity.
  - rewrite Hev. vm_compute. reflexivity.
Defined.

Lemma init_replication_witness :
  EvReplicateGlobal Sim.db_url
    ∈ events (init Sim.urljoin Sim.generate_config Sim.status_ok Sim.all_dbs
                Sim.design_path Sim.db_url None (Sim.world Sim.cloud_config ∅)) ∧
  EvReplicatePerFarm Sim.db_url
    ∈ events (init Sim.urljoin Sim.generate_config Sim.status_ok Sim.all_dbs
                Sim.design_path Sim.db_url None (Sim.world Sim.cloud_config ∅)).
Proof.
  destruct (init_replication Sim.urljoin Sim.generate_config Sim.status_ok Sim.all_dbs
              Sim.design_path Sim.db_url None (Sim.world Sim.cloud_config ∅))
    as [Hglobal Hfarm].
  - vm_compute. reflexivity.
  - split; [apply Hglobal | apply Hfarm]; by vm_compute.
Defined.

Lemma init_not_refused_witness :
  head (events (init Sim.urljoin Sim.generate_config Sim.status_error Sim.all_dbs
                  Sim.design_path Sim.db_url None (Sim.world Sim.local_config ∅)))
    = Some (EvHttpGet (config_url Sim.urljoin Sim.db_url "httpd" "bind_address")).
Proof.
  destruct (init_not_refused Sim.urljoin Sim.generate_config Sim.status_error
              Sim.all_dbs Sim.design_path Sim.db_url None
              (Sim.world Sim.local_config ∅)) as [_ Hhead].
  - right. reflexivity.
  - by apply (Hhead "httpd" "bind_address" "0.0.0.0" [("httpd", "enable_cors", "true")]).
Defined.

Lemma init_twice_witness :
  let w' := final (init Sim.urljoin Sim.generate_config Sim.status_ok Sim.all_dbs
                     Sim.design_path Sim.db_url None (Sim.world Sim.no_config ∅)) in
  res (init Sim.urljoin Sim.generate_config Sim.status_ok Sim.all_dbs
         Sim.design_path Sim.db_url None w') = Ok tt ∧
  Forall (λ e, match e with EvHttpPut _ _ | EvSleep _ => False | _ => True end)
    (events (init Sim.urljoin Sim.generate_config Sim.status_ok Sim.all_dbs
               Sim.design_path Sim.db_url None w')).
Proof.
  destruct (init_twice Sim.urljoin Sim.generate_config Sim.status_ok Sim.all_dbs
              Sim.design_path Sim.db_url None (Sim.world Sim.no_config ∅))
    as [_ Hsecond].
  - left. reflexivity.
  - apply (bool_decide_unpack _). vm_compute. exact I.
  - intros item _. reflexivity.
  - exact Hsecond.
Defined.

Lemma load_fixture_item_new_witness :
  let o := load_fixture_item Sim.new_rev "widgets" Sim.widget_foo Sim.widgets_world in
  res o = Ok tt ∧
  events o = [EvDocPut "widgets" "a" Sim.widget_foo] ∧
  lookup_doc (final o) "widgets" "a" = Some (<["_rev" := JNum 1]> Sim.widget_foo).
Proof.
  destruct (load_fixture_item_new Sim.new_rev "widgets" Sim.widget_foo ∅ "a"
              Sim.widgets_world) as (Hres & Hev & Hdoc & _).
  - vm_compute. reflexivity.
  - vm_compute. reflexivity.
  - vm_compute. reflexivity.
  - vm_compute. reflexivity.
  - by repeat split.
Defined.

Lemma load_fixture_writes_fixture_only_witness :
  ∃ items item,
    ("widgets", items) ∈ Sim.duplicate_fixture ∧ item ∈ items ∧
    item !! "_id" = Some (JStr "a") ∧
    delete "_rev" (<["_rev" := JNum 1]> Sim.widget_bar) = delete "_rev" item.
Proof.
  apply (load_fixture_writes_fixture_only Sim.new_rev Sim.duplicate_fixture
           Sim.widgets_world "widgets" "a" (<["_rev" := JNum 1]> Sim.widget_bar)).
  assert (Hw : writes (events (load_fixture Sim.new_rev Sim.duplicate_fixture
                                 Sim.widgets_world))
               = [("widgets", "a", Sim.widget_foo);
                  ("widgets", "a", <["_rev" := JNum 1]> Sim.widget_bar)])
    by (vm_compute; reflexivity).
  rewrite Hw. right. left.
Defined.

Lemma update_module_types_writes_known_witness :
  String.prefix "_" "m1" = false ∧
  is_Some (lookup_doc (Sim.world Sim.local_config Sim.git_store)
             Sim.FIRMWARE_MODULE_TYPE "m1").
Proof.
  destruct (update_module_types_writes_known Sim.FIRMWARE_MODULE_TYPE Sim.new_rev
              Sim.make_dir_name_from_url
              (Sim.git_clone {[ Sim.git_url := FManifest Sim.manifest_version ]})
              Sim.FirmwareModuleType Sim.mkdtemp_name
              (Sim.world Sim.local_config Sim.git_store)
              Sim.FIRMWARE_MODULE_TYPE "m1" (Sim.manifest_version ∪ Sim.module_m1))
    as (_ & Hpre & Hin).
  - assert (Hw : writes (events (update_module_types Sim.FIRMWARE_MODULE_TYPE
                   Sim.new_rev Sim.make_dir_name_from_url
                   (Sim.git_clone {[ Sim.git_url := FManifest Sim.manifest_version ]})
                   Sim.FirmwareModuleType Sim.mkdtemp_name
                   (Sim.world Sim.local_config Sim.git_store)))
                 = [(Sim.FIRMWARE_MODULE_TYPE, "m1",
                     Sim.manifest_version ∪ Sim.module_m1)])
      by (vm_compute; reflexivity).
    rewrite Hw. left.
  - by split.
Defined.

Lemma update_module_types_scratch_empty_witness :
  let o := update_module_types Sim.FIRMWARE_MODULE_TYPE Sim.new_rev
             Sim.make_dir_name_from_url
             (Sim.git_clone {[ Sim.git_url := FManifest Sim.manifest_version ]})
             Sim.FirmwareModuleType Sim.mkdtemp_name
             (Sim.world Sim.local_config Sim.git_store) in
  files (fs (final o)) !! "/tmp/tmpA/y/module.json" = None ∧
  "/tmp/tmpA/y/module.json" ∉ dirs (fs (final o)).
Proof.
  apply (update_module_types_scratch_empty Sim.FIRMWARE_MODULE_TYPE Sim.new_rev
           Sim.make_dir_name_from_url
           (Sim.git_clone {[ Sim.git_url := FManifest Sim.manifest_version ]})
           Sim.FirmwareModuleType Sim.mkdtemp_name
           (Sim.world Sim.local_config Sim.git_store) "/tmp/tmpA/y/module.json").
  - vm_compute. reflexivity.
  - vm_compute. reflexivity.
Defined.

Lemma no_local_server_refused_witness :
  ∃ message,
    let refused := {| res := Raise (ClickException message);
                      final := Sim.world Sim.no_config Sim.full_store;
                      events := [] |} in
    deinit (Sim.world Sim.no_config Sim.full_store) = refused ∧
    show (Sim.world Sim.no_config Sim.full_store) = refused ∧
    clear Sim.all_dbs Sim.confirm_yes (Sim.world Sim.no_config Sim.full_store)
      = refused ∧
    load_fixture Sim.new_rev Sim.widgets_fixture
      (Sim.world Sim.no_config Sim.full_store) = refused.
Proof.
  apply (no_local_server_refused Sim.all_dbs Sim.new_rev Sim.confirm_yes
           Sim.widgets_fixture (Sim.world Sim.no_config Sim.full_store)).
  reflexivity.
Defined.

Lemma deinit_then_init_witness :
  local_server_url (config (final (deinit (Sim.world Sim.local_config ∅)))) = None ∧
  ∀ message,
    res (init Sim.urljoin Sim.generate_config Sim.status_ok Sim.all_dbs
           Sim.design_path "http://10.0.0.7:5984" None
           (final (deinit (Sim.world Sim.local_config ∅))))
      ≠ Raise (ClickException message).
Proof.
  destruct (deinit_then_init Sim.urljoin Sim.generate_config Sim.status_ok
              Sim.all_dbs Sim.design_path (Sim.world Sim.local_config ∅)
              "http://10.0.0.7:5984" None) as [Hrun Hinit].
  - reflexivity.
  - split; [by rewrite Hrun | exact Hinit].
Defined.

Lemma clear_completed_witness :
  let w' := final (clear Sim.all_dbs Sim.confirm_yes
                     (Sim.world Sim.local_config Sim.full_store)) in
  dbs w' !! "firmware_module_type" = None ∧
  dbs w' !! "recipes" = None ∧
  dbs w' !! "widgets" = Some {[ "a" := Sim.widget_foo ]}.
Proof.
  destruct (clear_completed Sim.all_dbs Sim.confirm_yes
              (Sim.world Sim.local_config Sim.full_store))
    as (Hgone & Hother & _).
  - vm_compute. reflexivity.
  - cbn zeta. split; [apply Hgone; by left |].
    split; [apply Hgone; right; by left |].
    rewrite Hother; [vm_compute; reflexivity |].
    unfold Sim.all_dbs. rewrite !elem_of_cons, elem_of_nil.
    intros [[=] | [[=] | []]].
Defined.

Lemma clear_declined_witness :
  clear Sim.all_dbs Sim.confirm_no (Sim.world Sim.local_config Sim.full_store)
    = {| res := Raise (ClickException "Aborted!");
         final := Sim.world Sim.local_config Sim.full_store; events := [] |}.
Proof.
  apply (clear_declined Sim.all_dbs Sim.confirm_no
           (Sim.world Sim.local_config Sim.full_store)).
  - reflexivity.
  - reflexivity.
Defined.

Lemma init_then_show_witness :
  events (show (final (init Sim.urljoin Sim.generate_config Sim.status_ok Sim.all_dbs
                         Sim.design_path Sim.db_url None (Sim.world Sim.no_config ∅))))
    = [EvEcho ("Using local server at " +:+ q +:+ Sim.db_url +:+ q)].
Proof.
  rewrite (init_then_show Sim.urljoin Sim.generate_config Sim.status_ok Sim.all_dbs
             Sim.design_path Sim.db_url None (Sim.world Sim.no_config ∅)).
  - reflexivity.
  - vm_compute. reflexivity.
  - discriminate.
Defined.




Lemma config_value_whitespace_ignored_witness :
  events (apply_config_item Sim.urljoin Sim.status_error Sim.db_url
            ("httpd", "bind_address", "0.0.0.0") Sim.configured_world)
    = [EvHttpGet "http://localhost:5984/_config/httpd/bind_address"].
Proof.
  rewrite (config_value_whitespace_ignored Sim.urljoin Sim.status_error Sim.db_url
             "httpd" "bind_address" "0.0.0.0" EmptyString Sim.newline
             Sim.configured_world).
  - vm_compute. reflexivity.
  - reflexivity.
  - reflexivity.
  - vm_compute. reflexivity.
Defined.

Lemma init_trace_witness :
  ∃ config_events,
    Forall config_event config_events ∧
    events (init Sim.urljoin Sim.generate_config Sim.status_ok Sim.all_dbs
              Sim.design_path Sim.db_url None (Sim.world Sim.cloud_config ∅)) =
      config_events ++ map EvGetOrCreate Sim.all_dbs ++
      [EvEcho "Pushing design documents"; EvPushDesign Sim.design_path] ++
      replication_events Sim.cloud_config Sim.db_url.
Proof.
  apply (init_trace Sim.urljoin Sim.generate_config Sim.status_ok Sim.all_dbs
           Sim.design_path Sim.db_url None (Sim.world Sim.cloud_config ∅)).
  vm_compute. reflexivity.
Defined.
